(** * Water-map generator: a shallow embedding of [generate_water_map.py]

    The development follows the script top to bottom:
    - [F32]: the single-precision arithmetic numpy performs on the pixel
      arrays (division, multiplication by 255, clipping, the cast to uint8);
    - grids (2-D numpy arrays) and their shape;
    - the 16-bit normalizer, the threshold and the smoothing stage;
    - a small file-system world with an exception monad for
      [generate_water_map] itself. *)

From Stdlib Require Import ZArith Bool String DecimalString Lia List.
Import ListNotations.
Local Open Scope Z_scope.

(** ** Single-precision numbers *)

Module F32.

(** A finite floating-point number is a dyadic rational [mant * 2^expo].
    The representation is not canonical: [Dy 2 0] and [Dy 1 1] denote the
    same number. *)
Record dyadic : Type := Dy { mant : Z; expo : Z }.

Definition zero : dyadic := Dy 0 0.

(** Conversion of an integer array element to float32 ([astype(np.float32)]);
    exact for the 8- and 16-bit values the script converts. *)
Definition of_int (n : Z) : dyadic := Dy n 0.

(** Nearest integer to [n / d] for [0 < d], ties to even. *)
Definition rne_div (n d : Z) : Z :=
  let q := n / d in
  let r := n mod d in
  if 2 * r <? d then q
  else if d <? 2 * r then q + 1
  else if Z.even q then q else q + 1.

(** [n / d] scaled by [2^s], kept as a fraction of integers. *)
Definition scaled_num (n s : Z) : Z := if 0 <=? s then n * 2 ^ s else n.
Definition scaled_den (d s : Z) : Z := if 0 <=? s then d else d * 2 ^ (- s).

(** The binary32 number nearest to [n / d * 2^e], for [0 <= n] and [0 < d]:
    24 significant bits, round to nearest even, gradual underflow below
    [2^-126] (exponent never under -149).  Overflow is not modelled: the
    script only forms quotients at most 1 and products at most 255. *)
Definition round24 (n d e : Z) : dyadic :=
  if n =? 0 then zero
  else
    let s0 := 23 - (Z.log2 n - Z.log2 d) in
    let s1 := if scaled_num n s0 / scaled_den d s0 <? 2 ^ 23 then s0 + 1 else s0 in
    let s := Z.min s1 (e + 149) in
    Dy (rne_div (scaled_num n s) (scaled_den d s)) (e - s).

Definition neg (x : dyadic) : dyadic := Dy (- mant x) (expo x).

Definition round_f32 (n d e : Z) : dyadic :=
  if n <? 0 then neg (round24 (- n) d e) else round24 n d e.

(** float32 division; the divisor is positive wherever the script divides. *)
Definition div (x y : dyadic) : dyadic :=
  round_f32 (mant x) (mant y) (expo x - expo y).

(** float32 multiplication. *)
Definition mul (x y : dyadic) : dyadic :=
  round_f32 (mant x * mant y) 1 (expo x + expo y).

(** Comparison of the denoted numbers, on a common exponent. *)
Definition leb (x y : dyadic) : bool :=
  let e := Z.min (expo x) (expo y) in
  mant x * 2 ^ (expo x - e) <=? mant y * 2 ^ (expo y - e).

Definition maximum (x y : dyadic) : dyadic := if leb x y then y else x.
Definition minimum (x y : dyadic) : dyadic := if leb x y then x else y.

(** [np.clip(x, lo, hi)] is [minimum(maximum(x, lo), hi)]. *)
Definition clip (x lo hi : dyadic) : dyadic := minimum (maximum x lo) hi.

(** Truncation toward zero, the C conversion of a float to an integer. *)
Definition trunc (x : dyadic) : Z :=
  if 0 <=? expo x then mant x * 2 ^ expo x
  else Z.quot (mant x) (2 ^ (- expo x)).

(** [astype(np.uint8)] on a float array: truncate, keep the low 8 bits. *)
Definition to_uint8 (x : dyadic) : Z := trunc x mod 256.

(** [r] is an integer nearest to the number [x] denotes (either neighbour
    counts at a tie), stated without division. *)
Definition nearest_int (r : Z) (x : dyadic) : Prop :=
  if 0 <=? expo x then r = mant x * 2 ^ expo x
  else 2 * Z.abs (r * 2 ^ (- expo x) - mant x) <= 2 ^ (- expo x).

(** Rounding a non-negative number to the nearest integer, ties to even
    ([np.rint]). *)
Definition round_nearest (x : dyadic) : Z :=
  if 0 <=? expo x then mant x * 2 ^ expo x
  else rne_div (mant x) (2 ^ (- expo x)).

(** The number [x] denotes lies in the interval [0, 1]. *)
Definition in_unit (x : dyadic) : Prop :=
  0 <= mant x /\ expo x <= 0 /\ mant x <= 2 ^ (- expo x).

End F32.

(** ** Arrays *)

(** A 2-D numpy array, row by row. *)
Definition grid (A : Type) : Type := list (list A).

Section Grid.
Context {A B : Type}.



(** The length of every row; two grids of one shape have the same
    height and the same width. *)
Definition shape (g : grid A) : list nat := map (@List.length A) g.

Definition cell (g : grid A) (i j : nat) : option A :=
  match nth_error g i with
  | Some r => nth_error r j
  | None => None
  end.

(** An elementwise operation. *)
Definition map2d (f : A -> B) (g : grid A) : grid B := map (map f) g.

(** Every element of the array satisfies [P]. *)
Definition all_cells (P : A -> Prop) (g : grid A) : Prop :=
  Forall (Forall P) g.

End Grid.

(** Integer casts wrap around. *)
Definition uint8 (v : Z) : Z := v mod 256.
Definition uint16 (v : Z) : Z := v mod 65536.

(** Python exceptions the script can end with. *)
Inductive exn : Type :=
| FileNotFoundError
| IsADirectoryError
| NotADirectoryError
| FileExistsError
| UnidentifiedImageError
| ValueError.

Inductive result (A : Type) : Type :=
| Ok (a : A)
| Raise (e : exn).
Arguments Ok {A} a.
Arguments Raise {A} e.

(** [ndarray.max()]: the largest element; numpy raises [ValueError] on an
    array without elements. *)
Definition amax (g : grid Z) : result Z :=
  match concat g with
  | [] => Raise ValueError
  | x :: xs => Ok (fold_left Z.max xs x)
  end.

(** ** Images *)

(** A decoded image, by PIL mode: the two integer modes the script
    rescales, 8-bit grayscale, and everything else (a tuple of bands per
    pixel, with the name of the mode). *)
Inductive Image : Type :=
| ModeI (px : grid Z)
| ModeI16 (px : grid Z)
| ModeL (px : grid Z)
| ModeOther (mode : string) (px : grid (list Z)).





(** What the script uses of PIL beyond decoding: [Image.convert('L')],
    which keeps the size of the image, and the table of file extensions
    [Image.save] can write. *)
Record PIL : Type := {
  convert_L : string -> grid (list Z) -> grid Z;
  convert_L_shape : forall m px, shape (convert_L m px) = shape px;
  known_extension : string -> bool
}.

(** A finite Python float (sigma), as the dyadic rational it is. *)
Definition pyfloat : Type := F32.dyadic.

(** [scipy.ndimage]: the Gaussian filter returns an array of the shape
    and dtype of its input. *)
Record ndimage : Type := {
  gaussian_filter : grid F32.dyadic -> pyfloat -> grid F32.dyadic;
  gaussian_filter_shape : forall g sigma, shape (gaussian_filter g sigma) = shape g
}.

(** ** The normalizer (lines 61-72) *)

(** [(p / max * 255).astype(np.uint8)] on one float32 element. *)
Definition rescale16 (mx p : Z) : Z :=
  F32.to_uint8 (F32.mul (F32.div (F32.of_int p) (F32.of_int mx)) (F32.of_int 255)).

(** The branch for modes 'I' and 'I;16'. *)
Definition normalize16 (px : grid Z) : result (grid Z) :=
  let pixels_16bit := map2d uint16 px in
  match amax pixels_16bit with
  | Raise e => Raise e
  | Ok mx =>
      if 0 <? mx then Ok (map2d (rescale16 mx) pixels_16bit)
      else Ok (map2d uint8 pixels_16bit)
  end.

Definition load_pixels (pil : PIL) (img : Image) : result (grid Z) :=
  match img with
  | ModeI px | ModeI16 px => normalize16 px
  | ModeL px => Ok (map2d uint8 px)
  | ModeOther m px => Ok (map2d uint8 (convert_L pil m px))
  end.

(** ** The threshold (line 75) *)

(** [(pixels < threshold).astype(np.uint8) * 255] *)
Definition water_mask (pixels : grid Z) (threshold : Z) : grid Z :=
  map2d (fun v => uint8 (Z.b2z (v <? threshold) * 255)) pixels.

(** ** Files, standard output and the exception monad *)

(** A [pathlib] path: the anchor (empty for a relative path) and the
    components below it. *)
Record Path : Type := MkPath { anchor : string; parts : list string }.

Definition Path_eq_dec (p q : Path) : {p = q} + {p <> q}.
Proof. decide equality; [apply (list_eq_dec string_dec) | apply string_dec]. Defined.

Definition parent (p : Path) : Path := MkPath (anchor p) (removelast (parts p)).
Definition name (p : Path) : string := last (parts p) EmptyString.

(** [p / s] for a single relative component [s]. *)
Definition joinpath (p : Path) (s : string) : Path :=
  if string_dec s EmptyString then p else MkPath (anchor p) (parts p ++ [s]).

Inductive node : Type :=
| Directory
| ImageFile (img : Image)
| OtherFile.

Inductive io_event : Type :=
| EvOpen (p : Path)
| EvMkdir (p : Path)
| EvSave (p : Path).

(** The world a run acts on: the file system (the first binding of a path
    is the current one), the lines printed, and the file operations
    attempted so far. *)
Record World : Type := MkWorld {
  files : list (Path * node);
  stdout : list string;
  trace : list io_event
}.

Fixpoint lookup (fs : list (Path * node)) (p : Path) : option node :=
  match fs with
  | [] => None
  | (q, n) :: rest => if Path_eq_dec p q then Some n else lookup rest p
  end.

(** The current directory and the root always exist. *)
Definition is_dir (fs : list (Path * node)) (p : Path) : bool :=
  match parts p with
  | [] => true
  | _ :: _ => match lookup fs p with
              | Some Directory => true
              | _ => false
              end
  end.

Definition log (ev : io_event) (w : World) : World :=
  MkWorld (files w) (stdout w) (trace w ++ [ev]).

Definition bind_file (p : Path) (n : node) (w : World) : World :=
  MkWorld ((p, n) :: files w) (stdout w) (trace w).

Definition IO (A : Type) : Type := World -> result A * World.

Definition ret {A} (a : A) : IO A := fun w => (Ok a, w).

Definition bind {A B} (m : IO A) (k : A -> IO B) : IO B :=
  fun w =>
    match m w with
    | (Ok a, w') => k a w'
    | (Raise e, w') => (Raise e, w')
    end.

Definition lift {A} (r : result A) : IO A := fun w => (r, w).

Declare Scope io_scope.
Delimit Scope io_scope with io.
Notation "x <- m ;; k" := (bind m (fun x => k))
  (at level 100, m at next level, right associativity) : io_scope.
Notation "m ;; k" := (bind m (fun _ => k))
  (at level 100, right associativity) : io_scope.

Definition print (line : string) : IO unit :=
  fun w => (Ok tt, MkWorld (files w) (stdout w ++ [line]) (trace w)).

(** The non-empty prefixes of a list of components, shortest first. *)
Fixpoint prefixes (l : list string) : list (list string) :=
  match l with
  | [] => []
  | c :: rest => [c] :: map (cons c) (prefixes rest)
  end.

(** The directories a path goes through, from the top down to its
    parent. *)
Definition ancestors (p : Path) : list Path :=
  map (MkPath (anchor p)) (removelast (prefixes (parts p))).

(** The error of the operating system for a path that cannot be reached:
    the walk stops at the first ancestor that is not a directory, with
    [NotADirectoryError] when it is a file and [FileNotFoundError] when it
    is missing; when every ancestor is a directory, the last component is
    what is missing. *)
Fixpoint first_obstacle (fs : list (Path * node)) (dirs : list Path) : exn :=
  match dirs with
  | [] => FileNotFoundError
  | a :: rest =>
      match lookup fs a with
      | Some Directory => first_obstacle fs rest
      | Some _ => NotADirectoryError
      | None => FileNotFoundError
      end
  end.

Definition path_error (fs : list (Path * node)) (p : Path) : exn :=
  first_obstacle fs (ancestors p).

(** [Image.open(p)] *)
Definition Image_open (p : Path) : IO Image :=
  fun w =>
    let w' := log (EvOpen p) w in
    match lookup (files w) p with
    | Some (ImageFile img) => (Ok img, w')
    | Some OtherFile => (Raise UnidentifiedImageError, w')
    | Some Directory => (Raise IsADirectoryError, w')
    | None =>
        (Raise (if is_dir (files w) p then IsADirectoryError
                else path_error (files w) p), w')
    end.

(** [d.mkdir(exist_ok=True)] *)
Definition mkdir_exist_ok (d : Path) : IO unit :=
  fun w =>
    let w' := log (EvMkdir d) w in
    if is_dir (files w) d then (Ok tt, w')
    else
      match lookup (files w) d with
      | Some _ => (Raise FileExistsError, w')
      | None =>
          if is_dir (files w) (parent d) then (Ok tt, bind_file d Directory w')
          else (Raise (path_error (files w) d), w')
      end.

(** [Image.fromarray(a, mode='L').save(p)]: the format is looked up from
    the extension before the file is opened for writing. *)
Definition Image_save (pil : PIL) (a : grid Z) (p : Path) : IO unit :=
  fun w =>
    if known_extension pil (name p) then
      let w' := log (EvSave p) w in
      if is_dir (files w) p then (Raise IsADirectoryError, w')
      else if is_dir (files w) (parent p) then (Ok tt, bind_file p (ImageFile (ModeL a)) w')
      else (Raise (path_error (files w) p), w')
    else (Raise ValueError, w).

(** ** The script *)

(** Lines 82-86: the output path, when none is given, is the name of the
    height map in the directory [derived-watermaps] next to the directory
    of the height map, which is created if need be. *)
Definition resolve_output_path (heightmap_path : Path) (output_path : option Path)
    : IO Path :=
  match output_path with
  | None =>
      let output_dir := joinpath (parent (parent heightmap_path)) "derived-watermaps" in
      (mkdir_exist_ok output_dir ;;
       ret (joinpath output_dir (name heightmap_path)))%io
  | Some p => ret p
  end.

Section Script.
(** The libraries of the interpreter the script runs in; [scipy] is
    [None] when [from scipy import ndimage] raises [ImportError]. *)
Variable pil : PIL.
Variable scipy : option ndimage.

Local Open Scope io_scope.

(** [(np.clip(x, 0, 1) * 255).astype(np.uint8)] on one element. *)
Definition unit_to_uint8 (x : F32.dyadic) : Z :=
  F32.to_uint8 (F32.mul (F32.clip x (F32.of_int 0) (F32.of_int 1)) (F32.of_int 255)).

Definition apply_water_smoothing (water_map : grid Z) (sigma : pyfloat) : IO (grid Z) :=
  match scipy with
  | Some nd =>
      let result := map2d (fun v => F32.div (F32.of_int v) (F32.of_int 255)) water_map in
      let result := gaussian_filter nd result sigma in
      let result := map2d unit_to_uint8 result in
      ret result
  | None =>
      print "Warning: scipy not available, skipping smoothing" ;;
      print "Install with: pip install scipy" ;;
      ret water_map
  end.

Definition generate_water_map (heightmap_path : Path) (threshold : Z)
    (output_path : option Path) (smooth : bool) (sigma : pyfloat) : IO Path :=
  img <- Image_open heightmap_path ;;
  pixels <- lift (load_pixels pil img) ;;
  let water_map := water_mask pixels threshold in
  water_map <- (if smooth then apply_water_smoothing water_map sigma
                else ret water_map) ;;
  output_path <- resolve_output_path heightmap_path output_path ;;
  Image_save pil water_map output_path ;;
  ret output_path.

End Script.

(** ** The specification's reading of the two conversions *)

(** "map each pixel p to round(p / max16 * 255)": the same float32 product
    as [rescale16], rounded to the nearest integer. *)
Definition rescale16_rounded (mx p : Z) : Z :=
  F32.round_nearest (F32.mul (F32.div (F32.of_int p) (F32.of_int mx)) (F32.of_int 255)).

(** "clamp to [0,1], rescale back to [0,255], round to nearest integer":
    the same float32 product as [unit_to_uint8], rounded to the nearest
    integer. *)
Definition unit_to_uint8_rounded (x : F32.dyadic) : Z :=
  F32.round_nearest (F32.mul (F32.clip x (F32.of_int 0) (F32.of_int 1)) (F32.of_int 255)).

(** [r] is an integer nearest to the exact quotient [n / d], for [0 < d],
    whichever way a tie is broken. *)
Definition nearest_to_quotient (r n d : Z) : Prop := 2 * Z.abs (r * d - n) <= d.


(** A run that ends with an exception and has touched nothing: no file
    operation attempted, nothing printed, no file written. *)
Definition rejected_before_io {A : Type} (run : IO A) (w : World) : Prop :=
  exists e, run w = (Raise e, w).

(** ** Sample environments *)

(** Pillow's RGB to L conversion of one pixel (ITU-R 601-2 luma in 16-bit
    fixed point); other band counts keep their first band. *)
Definition luma (bands : list Z) : Z :=
  match bands with
  | [r; g; b] => (r * 19595 + g * 38470 + b * 7471 + 32768) / 65536
  | v :: _ => v
  | [] => 0
  end.

Definition ends_with_png (file : string) : bool :=
  Nat.ltb 4 (String.length file)
  && String.eqb (substring (String.length file - 4) 4 file) ".png".

(** A Pillow that converts by [luma] and writes PNG files only. *)
Definition pillow : PIL :=
  {| convert_L := fun _ px => map2d luma px;
     convert_L_shape := fun _ px =>
       eq_trans (map_map (map luma) (@List.length Z) px)
                (map_ext _ _ (fun row => length_map luma row) px);
     known_extension := ends_with_png |}.

(** [gaussian_filter] as scipy applies it for a sigma of at most 1e-15:
    no axis is filtered and the input is returned as it is. *)
Definition tiny_sigma_filter : ndimage :=
  {| gaussian_filter := fun g _ => g;
     gaussian_filter_shape := fun _ _ => eq_refl |}.

(** 2^-60, a positive sigma below 1e-15. *)
Definition tiny_sigma : pyfloat := F32.Dy 1 (-60).

Definition in_heightmaps (file : string) : Path := MkPath "" ["maps"; "heightmaps"; file]%string.
Definition in_watermaps (file : string) : Path := MkPath "" ["maps"; "derived-watermaps"; file]%string.

(** A project directory with one 8-bit height map, before any run. *)
Definition sample_world : World :=
  {| files := [ (MkPath "" ["maps"%string], Directory);
                (MkPath "" ["maps"; "heightmaps"]%string, Directory);
                (in_heightmaps "island.png", ImageFile (ModeL [[0; 39; 40]; [41; 200; 255]])) ];
     stdout := [];
     trace := [] |}.

(** A working directory with height maps outside any [heightmaps]
    directory: a 16-bit map and a TIFF in [scans], an 8-bit map and a text
    file at top level, and a 16-bit image without pixels. *)
Definition field_world : World :=
  {| files := [ (MkPath "" ["scans"%string], Directory);
                (MkPath "" ["scans"; "dem.png"]%string, ImageFile (ModeI16 [[3; 8]; [0; 5]]));
                (MkPath "" ["scans"; "relief.tif"]%string, ImageFile (ModeL [[10; 200]]));
                (MkPath "" ["scans"; "void.png"]%string, ImageFile (ModeI16 [[]; []]));
                (MkPath "" ["coast.png"%string], ImageFile (ModeL [[10; 200]]));
                (MkPath "" ["notes.txt"%string], OtherFile) ];
     stdout := [];
     trace := [] |}.


(** Two path names that cannot name the same file unless they are equal:
    the same anchor, and no component that is empty, [.] or [..].  (The
    world has no links.) *)
Definition plain (p : Path) : Prop :=
  forall c, In c (parts p) ->
            c <> EmptyString /\ c <> "."%string /\ c <> ".."%string.

Definition comparable (p q : Path) : Prop :=
  anchor p = anchor q /\ plain p /\ plain q.

(** ** Names for the paths of a run *)

(** Line 84: the directory a default output goes to. *)
Definition default_output_dir (heightmap_path : Path) : Path :=
  joinpath (parent (parent heightmap_path)) "derived-watermaps".

(** Lines 82-86: the path the water map is saved at. *)
Definition resolved_output (heightmap_path : Path) (output_path : option Path) : Path :=
  match output_path with
  | Some p => p
  | None => joinpath (default_output_dir heightmap_path) (name heightmap_path)
  end.

(** Lines 41-42: what the smoothing stage prints when scipy is missing. *)
Definition scipy_warning : list string :=
  ["Warning: scipy not available, skipping smoothing";
   "Install with: pip install scipy"]%string.

(** ** The batch driver, [generate_all_water_maps.py] *)

(** [str(n)] for a Python int, and for a length. *)
Definition str_int (n : Z) : string := NilZero.string_of_int (Z.to_int n).
Definition str_nat (n : nat) : string := NilZero.string_of_uint (Nat.to_uint n).

(** [str(p)] for a path. *)
Definition path_str (p : Path) : string :=
  match parts p with
  | [] => if string_dec (anchor p) EmptyString then "." else anchor p
  | _ :: _ => anchor p ++ String.concat "/" (parts p)
  end.

Definition newline : string := String (Ascii.ascii_of_nat 10) EmptyString.

(** ['=' * 60] *)
Definition bar : string := string_of_list_ascii (repeat (Ascii.ascii_of_nat 61) 60).

(** The options of the batch driver; the threshold defaults to [None]. *)
Record BatchArgs : Type := {
  b_threshold : option Z;
  b_smooth : bool;
  b_sigma : pyfloat
}.

(** [if args.threshold:] holds for an integer other than 0; [None] and 0
    are both false. *)
Definition threshold_given (args : BatchArgs) : option Z :=
  match b_threshold args with
  | Some v => if v =? 0 then None else Some v
  | None => None
  end.

(** [p.exists()] *)
Definition path_exists (fs : list (Path * node)) (p : Path) : bool :=
  match parts p with
  | [] => true
  | _ :: _ => match lookup fs p with
              | Some _ => true
              | None => false
              end
  end.

(** The entries of directory [d], each once.  The order is that of the
    bindings; the one the operating system lists them in is not fixed. *)
Definition entries (fs : list (Path * node)) (d : Path) : list Path :=
  filter (fun q => match parts q with
                   | [] => false
                   | _ :: _ => if Path_eq_dec (parent q) d then true else false
                   end)
         (nodup Path_eq_dec (map fst fs)).

(** A name matches [*.png] when it ends in [.png], in this case. *)
Definition matches_png (file : string) : bool :=
  String.eqb (substring (String.length file - 4) 4 file) ".png".

(** [list(d.glob("*.png"))]: nothing when [d] is not a directory. *)
Definition glob_png (fs : list (Path * node)) (d : Path) : list Path :=
  if is_dir fs d then filter (fun q => matches_png (name q)) (entries fs d) else [].

Definition say (line : string) (w : World) : World :=
  MkWorld (files w) (stdout w ++ [line]) (trace w).

Definition heightmaps_dir : Path := MkPath "" ["maps"; "heightmaps"]%string.

Section Batch.
(** [sys.executable], [str] of a float, and what running a child process
    to its end does to the world; its exit status is not looked at. *)
Variable executable : string.
Variable str_float : pyfloat -> string.
Variable subprocess_run : list string -> World -> World.

(** Lines 57-68: the command line for one height map. *)
Definition command (args : BatchArgs) (heightmap : Path) : list string :=
  [executable; "generate_water_map.py"; path_str heightmap]%string
  ++ match threshold_given args with
     | Some v => ["-t"; str_int v]%string
     | None => []
     end
  ++ (if b_smooth args then ["-s"; "--sigma"; str_float (b_sigma args)]%string else []).

(** Lines 52-70: the loop; returns the commands run, in order. *)
Fixpoint process (args : BatchArgs) (heightmaps : list Path) (w : World)
    : list (list string) * World :=
  match heightmaps with
  | [] => ([], w)
  | heightmap :: rest =>
      let w := say (newline ++ bar) w in
      let w := say ("Processing: " ++ name heightmap) w in
      let w := say bar w in
      let cmd := command args heightmap in
      let w := subprocess_run cmd w in
      let (cmds, w) := process args rest w in
      (cmd :: cmds, w)
  end.

(** [main]: the exit status, the commands run and the final world. *)
Definition batch_main (args : BatchArgs) (w : World) : Z * list (list string) * World :=
  if path_exists (files w) heightmaps_dir then
    match glob_png (files w) heightmaps_dir with
    | [] => (1, [], say ("No PNG files found in " ++ path_str heightmaps_dir) w)
    | heightmaps =>
        let w := say ("Found " ++ str_nat (List.length heightmaps)
                      ++ " height maps to process") w in
        let w := if b_smooth args
                 then say ("Smoothing enabled (sigma: " ++ str_float (b_sigma args) ++ ")") w
                 else w in
        let w := match threshold_given args with
                 | Some v => say ("Threshold: " ++ str_int v) w
                 | None => w
                 end in
        let w := say "" w in
        let (cmds, w) := process args heightmaps w in
        let w := say (newline ++ bar) w in
        let w := say "All done! Check maps/derived-watermaps/ for results" w in
        let w := say bar w in
        (0, cmds, w)
    end
  else (1, [], say ("Error: " ++ path_str heightmaps_dir ++ " not found") w).

End Batch.

(** A project directory with two height maps, a text file and a
    subdirectory in [maps/heightmaps]. *)
Definition batch_world : World :=
  {| files := [ (MkPath "" ["maps"%string], Directory);
                (heightmaps_dir, Directory);
                (in_heightmaps "island.png", ImageFile (ModeL [[0; 39; 40]; [41; 200; 255]]));
                (in_heightmaps "readme.txt", OtherFile);
                (in_heightmaps "alps.png", ImageFile (ModeI16 [[3; 8]; [0; 5]]));
                (MkPath "" ["maps"; "heightmaps"; "old"; "lake.png"]%string, OtherFile) ];
     stdout := [];
     trace := [] |}.

(** A child process that only leaves a line on standard output. *)
Definition echo_child (cmd : list string) (w : World) : World :=
  say (String.concat " " cmd) w.

(** * Properties *)

(** ** Rounding *)

Module F32Facts.
Import F32.

Lemma rne_div_nonneg (n d : Z) : 0 <= n -> 0 < d -> 0 <= rne_div n d.
Proof.
  intros Hn Hd. unfold rne_div.
  assert (0 <= n / d) by (apply Z.div_pos; lia).
  destruct (2 * (n mod d) <? d); [lia|].
  destruct (d <? 2 * (n mod d)); [lia|].
  destruct (Z.even (n / d)); lia.
Qed.

(** Rounding to nearest never crosses an integer. *)
Lemma rne_div_le (n d N : Z) : 0 < d -> n <= N * d -> rne_div n d <= N.
Proof.
  intros Hd Hn. unfold rne_div.
  pose proof (Z.div_mod n d ltac:(lia)) as E.
  pose proof (Z.mod_pos_bound n d Hd) as B.
  assert (n / d <= N) by nia.
  destruct (Z.eq_dec (n / d) N) as [Q|Q].
  - assert (n mod d = 0) by nia.
    replace (2 * (n mod d) <? d) with true by (symmetry; apply Z.ltb_lt; lia). lia.
  - destruct (2 * (n mod d) <? d); [lia|].
    destruct (d <? 2 * (n mod d)); [lia|].
    destruct (Z.even (n / d)); lia.
Qed.

Lemma rne_div_exact (q d : Z) : 0 < d -> rne_div (q * d) d = q.
Proof.
  intros Hd. unfold rne_div.
  rewrite Z.div_mul, Z.mod_mul by lia.
  replace (2 * 0 <? d) with true by (symmetry; apply Z.ltb_lt; lia). reflexivity.
Qed.

Lemma pow2_pos (e : Z) : 0 <= e -> 0 < 2 ^ e.
Proof. intros; apply Z.pow_pos_nonneg; lia. Qed.

Lemma pow2_split (a b : Z) : 0 <= a -> 0 <= b -> 2 ^ (a + b) = 2 ^ a * 2 ^ b.
Proof. intros; apply Z.pow_add_r; lia. Qed.

(** [round24] of a non-zero numerator: a shift [s] between the first
    guess (clamped for underflow) and one more, and the quotient at that
    shift rounded to an integer. *)
Lemma round24_shift (n d e : Z) :
  n <> 0 ->
  exists s,
    Z.min (23 - (Z.log2 n - Z.log2 d)) (e + 149) <= s /\
    s <= e + 149 /\
    round24 n d e = Dy (rne_div (scaled_num n s) (scaled_den d s)) (e - s).
Proof.
  intros Hn. unfold round24.
  replace (n =? 0) with false by (symmetry; apply Z.eqb_neq; exact Hn).
  cbv zeta.
  destruct (_ <? _); eexists; (split; [|split; [|reflexivity]]); lia.
Qed.

Lemma scaled_nonneg_shift (n d s : Z) :
  0 <= s -> scaled_num n s = n * 2 ^ s /\ scaled_den d s = d.
Proof.
  intros Hs. unfold scaled_num, scaled_den.
  replace (0 <=? s) with true by (symmetry; apply Z.leb_le; exact Hs). auto.
Qed.

Lemma scaled_neg_shift (n d s : Z) :
  s < 0 -> scaled_num n s = n /\ scaled_den d s = d * 2 ^ (- s).
Proof.
  intros Hs. unfold scaled_num, scaled_den.
  replace (0 <=? s) with false by (symmetry; apply Z.leb_gt; exact Hs). auto.
Qed.

(** A quotient of a non-negative number by a larger positive one rounds
    into [0, 1]. *)
Lemma div_in_unit (p m : Z) :
  0 <= p <= m -> 0 < m -> in_unit (div (of_int p) (of_int m)).
Proof.
  intros Hp Hm. unfold div, of_int, round_f32. cbn [mant expo].
  replace (p <? 0) with false by (symmetry; apply Z.ltb_ge; lia).
  destruct (Z.eq_dec p 0) as [->|Hp0].
  - unfold in_unit; cbn. lia.
  - destruct (round24_shift p m (0 - 0) Hp0) as (s & Hlo & Hhi & ->).
    assert (Z.log2 p <= Z.log2 m) by (apply Z.log2_le_mono; lia).
    assert (Hs : 23 <= s) by lia.
    destruct (scaled_nonneg_shift p m s ltac:(lia)) as [-> ->].
    pose proof (pow2_pos s ltac:(lia)).
    unfold in_unit. cbn [mant expo].
    replace (- (0 - 0 - s)) with s by lia.
    repeat split.
    + apply rne_div_nonneg; nia.
    + lia.
    + apply rne_div_le; nia.
Qed.

(** A number of [0, 1] times 255, rounded and truncated, is a byte. *)
Lemma mul255_trunc_range (x : dyadic) :
  in_unit x -> 0 <= trunc (mul x (of_int 255)) <= 255.
Proof.
  destruct x as [m e]. unfold in_unit. cbn [mant expo]. intros (Hm & He & Hle).
  unfold mul, of_int, round_f32. cbn [mant expo].
  replace (m * 255 <? 0) with false by (symmetry; apply Z.ltb_ge; lia).
  destruct (Z.eq_dec (m * 255) 0) as [E|Hn0].
  - rewrite E. cbn. lia.
  - destruct (round24_shift (m * 255) 1 (e + 0) Hn0) as (s & Hlo & Hhi & ->).
    set (n := m * 255) in *.
    pose proof (pow2_pos (- e) ltac:(lia)) as Hpe.
    assert (Hlog : Z.log2 n < 8 - e).
    { apply Z.log2_lt_pow2; [lia|].
      replace (8 - e) with (8 + - e) by lia. rewrite pow2_split by lia.
      change (2 ^ 8) with 256. nia. }
    change (Z.log2 1) with 0 in Hlo.
    assert (Hs : e < s) by lia.
    assert (Hmant : 0 <= rne_div (scaled_num n s) (scaled_den 1 s) <= 255 * 2 ^ (s - e)).
    { destruct (Z.le_gt_cases 0 s) as [Hs0|Hs0].
      - destruct (scaled_nonneg_shift n 1 s Hs0) as [-> ->].
        pose proof (pow2_pos s Hs0).
        split; [apply rne_div_nonneg; nia|].
        apply rne_div_le; [lia|].
        replace (s - e) with (s + - e) by lia. rewrite pow2_split by lia. nia.
      - destruct (scaled_neg_shift n 1 s Hs0) as [-> ->].
        pose proof (pow2_pos (- s) ltac:(lia)).
        split; [apply rne_div_nonneg; nia|].
        apply rne_div_le; [nia|].
        replace (- e) with ((s - e) + - s) in Hle by lia.
        rewrite pow2_split in Hle by lia. nia. }
    unfold trunc. cbn [mant expo].
    replace (0 <=? e + 0 - s) with false by (symmetry; apply Z.leb_gt; lia).
    replace (- (e + 0 - s)) with (s - e) by lia.
    pose proof (pow2_pos (s - e) ltac:(lia)) as Hp.
    rewrite Z.quot_div_nonneg by lia.
    split.
    + apply Z.div_pos; lia.
    + apply Z.div_le_upper_bound; lia.
Qed.

(** Clipping to [0, 1] lands in [0, 1]. *)
Lemma clip_in_unit (x : dyadic) : in_unit (clip x (of_int 0) (of_int 1)).
Proof.
  unfold clip, maximum, minimum.
  destruct (leb x (of_int 0)) eqn:L0.
  - assert (leb (of_int 0) (of_int 1) = true) as -> by reflexivity.
    unfold in_unit; cbn; lia.
  - destruct (leb x (of_int 1)) eqn:L1; [|unfold in_unit; cbn; lia].
    destruct x as [m e]. unfold leb, of_int in *. cbn [mant expo] in *.
    apply Z.leb_gt in L0. apply Z.leb_le in L1.
    unfold in_unit. cbn [mant expo].
    destruct (Z.le_gt_cases e 0) as [He|He].
    + rewrite Z.min_l in * by lia.
      replace (e - e) with 0 in * by lia. change (2 ^ 0) with 1 in *.
      replace (0 - e) with (- e) in * by lia.
      pose proof (pow2_pos (- e) ltac:(lia)). nia.
    + rewrite Z.min_r in * by lia.
      replace (e - 0) with e in * by lia. change (0 - 0) with 0 in *.
      change (2 ^ 0) with 1 in *.
      assert (2 ^ 1 <= 2 ^ e) by (apply Z.pow_le_mono_r; lia).
      change (2 ^ 1) with 2 in *.
      set (k := 2 ^ e) in *. assert (0 < m) by nia. nia.
Qed.

(** The quotient of a positive number by itself is exactly one, and one
    times 255 is exactly 255. *)
Lemma div_self_mul255 (m : Z) :
  0 < m -> trunc (mul (div (of_int m) (of_int m)) (of_int 255)) = 255.
Proof.
  intros Hm.
  assert (E : div (of_int m) (of_int m) = Dy (2 ^ 23) (- 23)).
  { unfold div, of_int, round_f32. cbn [mant expo].
    replace (m <? 0) with false by (symmetry; apply Z.ltb_ge; lia).
    unfold round24.
    replace (m =? 0) with false by (symmetry; apply Z.eqb_neq; lia).
    replace (23 - (Z.log2 m - Z.log2 m)) with 23 by lia.
    destruct (scaled_nonneg_shift m m 23 ltac:(lia)) as [-> ->].
    rewrite (Z.mul_comm m), Z.div_mul by lia.
    change (2 ^ 23 <? 2 ^ 23) with false. cbv iota.
    change (Z.min 23 (0 - 0 + 149)) with 23.
    destruct (scaled_nonneg_shift m m 23 ltac:(lia)) as [-> ->].
    rewrite (Z.mul_comm m), rne_div_exact by lia. reflexivity. }
  rewrite E. reflexivity.
Qed.

End F32Facts.

(** ** Arrays *)

Section GridFacts.
Context {A B : Type}.

Lemma shape_map2d (f : A -> B) (g : grid A) : shape (map2d f g) = shape g.
Proof.
  unfold shape, map2d. rewrite map_map.
  apply map_ext. intros row. apply length_map.
Qed.

Lemma cell_map2d (f : A -> B) (g : grid A) (i j : nat) :
  cell (map2d f g) i j = option_map f (cell g i j).
Proof.
  unfold cell, map2d. rewrite nth_error_map.
  destruct (nth_error g i) as [row|]; cbn; [apply nth_error_map | reflexivity].
Qed.


Lemma all_cells_cell (P : A -> Prop) (g : grid A) (i j : nat) (v : A) :
  all_cells P g -> cell g i j = Some v -> P v.
Proof.
  unfold all_cells, cell. intros H E.
  destruct (nth_error g i) as [row|] eqn:R; [|discriminate].
  apply nth_error_In in R, E.
  rewrite Forall_forall in H. specialize (H row R).
  rewrite Forall_forall in H. exact (H v E).
Qed.

Lemma all_cells_concat (P : A -> Prop) (g : grid A) :
  all_cells P g <-> Forall P (concat g).
Proof.
  unfold all_cells. induction g as [|row g IH]; cbn.
  - split; constructor.
  - rewrite Forall_app, <- IH. split.
    + intros H. inversion H; auto.
    + intros [H1 H2]. constructor; assumption.
Qed.

Lemma all_cells_map2d (P : B -> Prop) (f : A -> B) (g : grid A) :
  (forall v, P (f v)) -> all_cells P (map2d f g).
Proof.
  intros H. unfold all_cells, map2d.
  apply Forall_map, Forall_forall. intros row _.
  apply Forall_map, Forall_forall. intros v _. apply H.
Qed.

Lemma map2d_ext_on (f f' : A -> B) (g : grid A) :
  all_cells (fun v => f v = f' v) g -> map2d f g = map2d f' g.
Proof.
  unfold all_cells, map2d. intros H.
  apply map_ext_in. intros row R.
  apply map_ext_in. intros v V.
  rewrite Forall_forall in H. specialize (H row R).
  rewrite Forall_forall in H. exact (H v V).
Qed.

End GridFacts.

Lemma map2d_fixes (f : Z -> Z) (g : grid Z) :
  all_cells (fun v => f v = v) g -> map2d f g = g.
Proof.
  intros H. rewrite (map2d_ext_on f (fun v => v)) by exact H.
  unfold map2d. rewrite (map_ext _ (fun row => row)); [apply map_id|].
  intros row. apply map_id.
Qed.

Lemma fold_max_ge (xs : list Z) (x : Z) :
  x <= fold_left Z.max xs x /\ Forall (fun v => v <= fold_left Z.max xs x) xs.
Proof.
  revert x. induction xs as [|y xs IH]; intros x; cbn.
  - split; [lia | constructor].
  - destruct (IH (Z.max x y)) as [H1 H2]. split; [lia|].
    constructor; [lia | exact H2].
Qed.

Lemma fold_max_const (xs : list Z) (x : Z) :
  Forall (fun v => v = x) xs -> fold_left Z.max xs x = x.
Proof.
  induction xs as [|y xs IH]; cbn; intros H; [reflexivity|].
  inversion H; subst. rewrite Z.max_id. auto.
Qed.

(** The maximum bounds every element. *)
Lemma amax_upper (g : grid Z) (M : Z) :
  amax g = Ok M -> all_cells (fun v => v <= M) g.
Proof.
  unfold amax. intros E. apply all_cells_concat.
  destruct (concat g) as [|x xs]; [discriminate|].
  injection E as <-.
  destruct (fold_max_ge xs x) as [H1 H2]. constructor; assumption.
Qed.


Lemma amax_zero (g : grid Z) :
  concat g <> [] -> all_cells (fun v => v = 0) g -> amax g = Ok 0.
Proof.
  unfold amax. intros Hne H. apply all_cells_concat in H.
  destruct (concat g) as [|x xs]; [congruence|].
  inversion H; subst. now rewrite fold_max_const.
Qed.

Lemma uint16_small (v : Z) : 0 <= v <= 65535 -> uint16 v = v.
Proof. intros; unfold uint16; apply Z.mod_small; lia. Qed.

Lemma uint8_small (v : Z) : 0 <= v <= 255 -> uint8 v = v.
Proof. intros; unfold uint8; apply Z.mod_small; lia. Qed.

(** On pixels that are 16-bit to begin with, the cast to [np.uint16]
    changes nothing. *)
Lemma pixels_16bit_same (px : grid Z) :
  all_cells (fun p => 0 <= p <= 65535) px -> map2d uint16 px = px.
Proof.
  intros H. apply map2d_fixes.
  unfold all_cells in *. eapply Forall_impl; [|exact H].
  intros row. apply Forall_impl. intros v. apply uint16_small.
Qed.

(** ** The threshold *)

(** C1: for every intensity grid and every threshold t, the cell of the
    thresholded grid is 255 (water) if and only if the intensity v at that
    position satisfies v < t, strictly, and 0 (land) otherwise; in
    particular t = 0 makes no cell of a grid of intensities water, and
    t = 255 makes the intensities 0..254 water and only 255 land. *)
Theorem water_mask_strict (pixels : grid Z) (t : Z) (i j : nat) (v : Z) :
  cell pixels i j = Some v ->
  exists w,
    cell (water_mask pixels t) i j = Some w /\
    (w = 255 <-> v < t) /\
    (w = 0 <-> ~ v < t) /\
    (t = 0 -> 0 <= v -> w = 0) /\
    (t = 255 -> 0 <= v <= 255 -> (w = 255 <-> v <= 254) /\ (w = 0 <-> v = 255)).
Proof.
  intros E. unfold water_mask. rewrite cell_map2d, E. cbn [option_map].
  eexists; split; [reflexivity|].
  destruct (Z.ltb_spec v t) as [L|L]; cbn; lia.
Qed.

Lemma water_mask_strict_witness :
  cell (water_mask [[39; 40; 41]] 40) 0 0 = Some 255 /\
  cell (water_mask [[39; 40; 41]] 40) 0 1 = Some 0 /\
  cell (water_mask [[0; 7]] 0) 0 0 = Some 0 /\
  cell (water_mask [[254; 255]] 255) 0 0 = Some 255 /\
  cell (water_mask [[254; 255]] 255) 0 1 = Some 0.
Proof.
  destruct (water_mask_strict [[39; 40; 41]] 40 0 0 39 eq_refl) as (w1 & E1 & W1 & _).
  destruct (water_mask_strict [[39; 40; 41]] 40 0 1 40 eq_refl) as (w2 & E2 & _ & L2 & _).
  destruct (water_mask_strict [[0; 7]] 0 0 0 0 eq_refl) as (w3 & E3 & _ & _ & Z3 & _).
  destruct (water_mask_strict [[254; 255]] 255 0 0 254 eq_refl) as (w4 & E4 & _ & _ & _ & T4).
  destruct (water_mask_strict [[254; 255]] 255 0 1 255 eq_refl) as (w5 & E5 & _ & _ & _ & T5).
  rewrite E1, E2, E3, E4, E5.
  repeat split; f_equal.
  - apply W1; lia.
  - apply L2; lia.
  - apply Z3; [reflexivity | lia].
  - apply T4; [reflexivity | lia | lia].
  - apply T5; [reflexivity | lia | reflexivity].
Defined.

(** C3: right after the threshold, before any smoothing, every cell of the
    water map is 0 or 255, whatever the intensity grid and the threshold. *)
Theorem water_mask_binary (pixels : grid Z) (t : Z) :
  all_cells (fun w => w = 0 \/ w = 255) (water_mask pixels t).
Proof.
  unfold water_mask. apply all_cells_map2d. intros v.
  destruct (v <? t); cbn; auto.
Qed.

(** ** The 16-bit normalizer *)

(** On an image with a positive maximum, every pixel goes through
    [rescale16]. *)
Lemma normalize16_rescales (px : grid Z) (M : Z) :
  all_cells (fun p => 0 <= p <= 65535) px ->
  amax px = Ok M ->
  0 < M ->
  normalize16 px = Ok (map2d (rescale16 M) px).
Proof.
  intros Hr Hmax HM. unfold normalize16.
  rewrite (pixels_16bit_same px Hr), Hmax.
  replace (0 <? M) with true by (symmetry; apply Z.ltb_lt; exact HM).
  reflexivity.
Qed.

(** An image of zeros takes the branch without a division. *)
Lemma normalize16_all_zero (px : grid Z) :
  concat px <> [] ->
  all_cells (fun p => p = 0) px ->
  normalize16 px = Ok (map2d (fun _ => 0) px).
Proof.
  intros Hne Hz.
  assert (Hr : all_cells (fun p => 0 <= p <= 65535) px).
  { unfold all_cells in *. eapply Forall_impl; [|exact Hz].
    intros row. apply Forall_impl. intros v ->. lia. }
  unfold normalize16.
  rewrite (pixels_16bit_same px Hr), (amax_zero px Hne Hz).
  change (0 <? 0) with false. cbv iota. f_equal.
  apply map2d_ext_on.
  unfold all_cells in *. eapply Forall_impl; [|exact Hz].
  intros row. apply Forall_impl. intros v ->. reflexivity.
Qed.

(** The cast after the rescale never wraps: the float32 product is
    between 0 and 255. *)
Lemma rescale16_is_trunc (M p : Z) :
  0 <= p <= M ->
  0 < M ->
  rescale16 M p = F32.trunc (F32.mul (F32.div (F32.of_int p) (F32.of_int M)) (F32.of_int 255))
  /\ 0 <= rescale16 M p <= 255.
Proof.
  intros Hp HM. unfold rescale16, F32.to_uint8.
  pose proof (F32Facts.mul255_trunc_range _ (F32Facts.div_in_unit p M Hp HM)) as R.
  rewrite Z.mod_small by lia. split; [reflexivity | exact R].
Qed.

(** C7: an all-zero 16-bit image (of at least one pixel) is normalized to
    an all-zero 8-bit grid, through the branch that does not divide; and in
    a 16-bit image whose maximum M is positive, every pixel holding M is
    normalized to exactly 255. *)
Theorem normalize16_extremes :
  (forall px : grid Z,
      concat px <> [] ->
      all_cells (fun p => p = 0) px ->
      exists out,
        normalize16 px = Ok out /\ shape out = shape px /\ all_cells (fun r => r = 0) out)
  /\
  (forall (px : grid Z) (M : Z) (i j : nat),
      all_cells (fun p => 0 <= p <= 65535) px ->
      amax px = Ok M ->
      0 < M ->
      cell px i j = Some M ->
      exists out, normalize16 px = Ok out /\ cell out i j = Some 255).
Proof.
  split.
  - intros px Hne Hz. eexists. split; [apply normalize16_all_zero; assumption|].
    split; [apply shape_map2d|].
    apply all_cells_map2d. reflexivity.
  - intros px M i j Hr Hmax HM Hc.
    eexists. split; [apply normalize16_rescales; eassumption|].
    rewrite cell_map2d, Hc. cbn [option_map]. f_equal.
    destruct (rescale16_is_trunc M M ltac:(lia) HM) as [-> _].
    apply F32Facts.div_self_mul255. exact HM.
Qed.

Lemma normalize16_extremes_witness :
  (exists out,
      normalize16 [[0; 0]; [0; 0]] = Ok out /\
      shape out = shape [[0; 0]; [0; 0]] /\ all_cells (fun r => r = 0) out)
  /\
  (exists out,
      normalize16 [[12; 65535]; [40000; 65535]] = Ok out /\ cell out 1 1 = Some 255).
Proof.
  destruct normalize16_extremes as [Hzero Hmax]. split.
  - apply Hzero; [discriminate|].
    repeat constructor.
  - apply (Hmax [[12; 65535]; [40000; 65535]] 65535 1%nat 1%nat);
      [ repeat constructor; lia | reflexivity | lia | reflexivity ].
Defined.

(** C2, as the code has it: for a 16-bit image with a positive maximum
    max16, each pixel p is mapped to the float32 product p / max16 * 255
    truncated toward zero (not rounded to the nearest integer), a value
    between 0 and 255; an all-zero image (of at least one pixel) maps every
    pixel to 0. *)
Theorem normalize16_truncates :
  (forall (px : grid Z) (max16 : Z) (i j : nat) (p : Z),
      all_cells (fun v => 0 <= v <= 65535) px ->
      amax px = Ok max16 ->
      0 < max16 ->
      cell px i j = Some p ->
      exists out r,
        normalize16 px = Ok out /\
        cell out i j = Some r /\
        r = F32.trunc (F32.mul (F32.div (F32.of_int p) (F32.of_int max16)) (F32.of_int 255)) /\
        0 <= r <= 255)
  /\
  (forall (px : grid Z) (i j : nat) (p : Z),
      all_cells (fun v => v = 0) px ->
      cell px i j = Some p ->
      exists out, normalize16 px = Ok out /\ cell out i j = Some 0).
Proof.
  split.
  - intros px max16 i j p Hr Hmax HM Hc.
    assert (Hp : 0 <= p <= max16).
    { pose proof (all_cells_cell _ _ _ _ _ Hr Hc) as H1. cbn beta in H1.
      pose proof (all_cells_cell _ _ _ _ _ (amax_upper px max16 Hmax) Hc) as H2.
      cbn beta in H2. lia. }
    destruct (rescale16_is_trunc max16 p Hp HM) as [E R].
    exists (map2d (rescale16 max16) px), (rescale16 max16 p).
    split; [apply normalize16_rescales; assumption|].
    split; [rewrite cell_map2d, Hc; reflexivity|].
    split; assumption.
  - intros px i j p Hz Hc.
    assert (Hne : concat px <> []).
    { unfold cell in Hc. destruct (nth_error px i) as [row|] eqn:R; [|discriminate].
      apply nth_error_In in R, Hc. intros E.
      assert (In p (concat px)) as I by (apply in_concat; eauto).
      rewrite E in I. exact I. }
    eexists. split; [apply normalize16_all_zero; assumption|].
    rewrite cell_map2d, Hc. reflexivity.
Qed.

Lemma normalize16_truncates_witness :
  (exists out r,
      normalize16 [[3; 8]] = Ok out /\
      cell out 0 0 = Some r /\
      r = F32.trunc (F32.mul (F32.div (F32.of_int 3) (F32.of_int 8)) (F32.of_int 255)) /\
      0 <= r <= 255)
  /\
  (exists out, normalize16 [[0; 0; 0]] = Ok out /\ cell out 0 2 = Some 0).
Proof.
  destruct normalize16_truncates as [Hpos Hzero]. split.
  - apply (Hpos [[3; 8]] 8 0%nat 0%nat 3);
      [ repeat constructor; lia | reflexivity | lia | reflexivity ].
  - apply (Hzero [[0; 0; 0]] 0%nat 2%nat 0); [repeat constructor | reflexivity].
Defined.

(** C2 as stated fails: in the one-row image 3, 8 the maximum is 8 and the
    pixel 3 gives 3 / 8 * 255 = 95.625 (exact in float32); the code stores
    95, the nearest integer is 96. *)
Lemma normalize16_not_rounded :
  normalize16 [[3; 8]] = Ok [[95; 255]] /\
  map2d (rescale16_rounded 8) [[3; 8]] = [[96; 255]] /\
  ~ nearest_to_quotient 95 (3 * 255) 8 /\
  nearest_to_quotient 96 (3 * 255) 8.
Proof.
  split; [reflexivity|]. split; [reflexivity|].
  unfold nearest_to_quotient. split; cbn; lia.
Qed.

(** ** Smoothing *)


(** C5: when scipy cannot be imported, the smoothing stage returns the
    water map it was given, unchanged, prints a two-line warning on
    standard output and raises nothing; no file is touched. *)
Theorem smoothing_skipped_without_scipy (wm : grid Z) (sigma : pyfloat) (w : World) :
  apply_water_smoothing None wm sigma w
  = (Ok wm,
     MkWorld (files w)
             (stdout w ++ ["Warning: scipy not available, skipping smoothing";
                           "Install with: pip install scipy"]%string)
             (trace w)).
Proof.
  unfold apply_water_smoothing, bind, print, ret; cbn.
  rewrite <- app_assoc. reflexivity.
Qed.

(** The cast after the clip never wraps. *)
Lemma unit_to_uint8_is_trunc (x : F32.dyadic) :
  unit_to_uint8 x
  = F32.trunc (F32.mul (F32.clip x (F32.of_int 0) (F32.of_int 1)) (F32.of_int 255))
  /\ 0 <= unit_to_uint8 x <= 255.
Proof.
  unfold unit_to_uint8, F32.to_uint8.
  pose proof (F32Facts.mul255_trunc_range _ (F32Facts.clip_in_unit x)) as R.
  rewrite Z.mod_small by lia. split; [reflexivity | exact R].
Qed.

(** C6, as the code has it: with scipy present, each value x of the
    convolved grid is clipped to [0,1], multiplied by 255 in float32 and
    truncated toward zero (not rounded to the nearest integer) to an 8-bit
    value between 0 and 255, for every water map and every sigma. *)
Theorem smoothing_truncates (nd : ndimage) (wm : grid Z) (sigma : pyfloat)
    (w : World) (i j : nat) (x : F32.dyadic) :
  cell (gaussian_filter nd
          (map2d (fun v => F32.div (F32.of_int v) (F32.of_int 255)) wm) sigma) i j
  = Some x ->
  exists out r,
    apply_water_smoothing (Some nd) wm sigma w = (Ok out, w) /\
    cell out i j = Some r /\
    r = F32.trunc (F32.mul (F32.clip x (F32.of_int 0) (F32.of_int 1)) (F32.of_int 255)) /\
    0 <= r <= 255.
Proof.
  intros Hx.
  destruct (unit_to_uint8_is_trunc x) as [E R].
  eexists. exists (unit_to_uint8 x).
  split; [reflexivity|].
  split; [rewrite cell_map2d, Hx; reflexivity|].
  split; assumption.
Qed.

Lemma smoothing_truncates_witness :
  exists out r,
    apply_water_smoothing (Some tiny_sigma_filter) [[0; 255]] tiny_sigma sample_world
    = (Ok out, sample_world) /\
    cell out 0 1 = Some r /\
    r = F32.trunc (F32.mul (F32.clip (F32.Dy 8388608 (-23)) (F32.of_int 0) (F32.of_int 1))
                           (F32.of_int 255)) /\
    0 <= r <= 255.
Proof.
  apply (smoothing_truncates tiny_sigma_filter [[0; 255]] tiny_sigma sample_world
           0 1 (F32.Dy 8388608 (-23))).
  reflexivity.
Defined.

(** C6 as stated fails: a convolved value of 0.375 becomes 95.625 after
    the clip and the rescale (exact in float32); the code stores 95, the
    nearest integer is 96. *)
Lemma smoothing_not_rounded :
  let x := F32.Dy 3 (-3) in
  let y := F32.mul (F32.clip x (F32.of_int 0) (F32.of_int 1)) (F32.of_int 255) in
  unit_to_uint8 x = 95 /\
  unit_to_uint8_rounded x = 96 /\
  ~ F32.nearest_int 95 y /\
  F32.nearest_int 96 y.
Proof.
  cbv zeta. split; [reflexivity|]. split; [reflexivity|].
  split; [intros H; vm_compute in H; apply H; reflexivity | vm_compute; intros; discriminate].
Qed.

(** ** Paths and files *)





Lemma lookup_bind_same (fs : list (Path * node)) (p : Path) (n : node) :
  lookup ((p, n) :: fs) p = Some n.
Proof. cbn. destruct (Path_eq_dec p p); congruence. Qed.

Lemma lookup_bind_other (fs : list (Path * node)) (p q : Path) (n : node) :
  p <> q -> lookup ((q, n) :: fs) p = lookup fs p.
Proof. intros H. cbn. destruct (Path_eq_dec p q); congruence. Qed.

Lemma is_dir_bind_same (fs : list (Path * node)) (p : Path) :
  is_dir ((p, Directory) :: fs) p = true.
Proof. unfold is_dir. rewrite lookup_bind_same. destruct (parts p); reflexivity. Qed.

Lemma is_dir_bind_other (fs : list (Path * node)) (p q : Path) (n : node) :
  p <> q -> is_dir ((q, n) :: fs) p = is_dir fs p.
Proof. intros H. unfold is_dir. rewrite lookup_bind_other by exact H. reflexivity. Qed.

(** ** The size of the grids *)








(** ** The whole transform *)

(** C10: without smoothing, the run does not depend on sigma: for every
    input path, threshold, output path and world, any two sigmas give the
    same result and the same final world, output file included. *)
Theorem sigma_unused_without_smoothing (pil : PIL) (scipy : option ndimage)
    (heightmap_path : Path) (threshold : Z) (output_path : option Path)
    (sigma sigma' : pyfloat) (w : World) :
  generate_water_map pil scipy heightmap_path threshold output_path false sigma w
  = generate_water_map pil scipy heightmap_path threshold output_path false sigma' w.
Proof. reflexivity. Qed.


(** Saving under a known extension, into an existing directory, at a path
    that is not a directory, binds the path to the image. *)
Lemma Image_save_ok (pil : PIL) (a : grid Z) (p : Path) (w : World) :
  known_extension pil (name p) = true ->
  is_dir (files w) p = false ->
  is_dir (files w) (parent p) = true ->
  Image_save pil a p w
  = (Ok tt, MkWorld ((p, ImageFile (ModeL a)) :: files w) (stdout w) (trace w ++ [EvSave p])).
Proof.
  intros He Hp Hd. unfold Image_save. rewrite He, Hp, Hd. reflexivity.
Qed.




(** The lines printed by the smoothing step depend on scipy only. *)
Lemma smoothing_step (scipy : option ndimage) (smooth : bool) (wm : grid Z)
    (sigma : pyfloat) (w : World) :
  exists out,
    (if smooth then apply_water_smoothing scipy wm sigma else ret wm) w
    = (Ok out,
       MkWorld (files w)
               (stdout w ++ match smooth, scipy with
                            | true, None =>
                                ["Warning: scipy not available, skipping smoothing";
                                 "Install with: pip install scipy"]%string
                            | _, _ => []
                            end)
               (trace w)).
Proof.
  destruct smooth; [destruct scipy as [nd|]|].
  - eexists. cbn. rewrite app_nil_r. destruct w; reflexivity.
  - eexists. unfold apply_water_smoothing, bind, print, ret; cbn.
    rewrite <- app_assoc. reflexivity.
  - eexists. unfold ret. rewrite app_nil_r. destruct w; reflexivity.
Qed.

(** Resolving the output path only appends to the trace, and prints
    nothing. *)
Lemma resolve_output_path_trace (p : Path) (o : option Path) (w : World) :
  exists rest,
    trace (snd (resolve_output_path p o w)) = trace w ++ rest /\
    stdout (snd (resolve_output_path p o w)) = stdout w.
Proof.
  destruct o as [q|]; cbn.
  - exists []. now rewrite app_nil_r.
  - unfold bind, mkdir_exist_ok, ret, log, bind_file.
    destruct (is_dir (files w) _); cbn; [eauto|].
    destruct (lookup (files w) _); cbn; [eauto|].
    destruct (is_dir (files w) _); cbn; eauto.
Qed.

(** What is saved does not change how saving goes. *)
Lemma Image_save_content (pil : PIL) (a a' : grid Z) (q : Path) (w : World) :
  fst (Image_save pil a q w) = fst (Image_save pil a' q w) /\
  trace (snd (Image_save pil a q w)) = trace (snd (Image_save pil a' q w)) /\
  stdout (snd (Image_save pil a q w)) = stdout (snd (Image_save pil a' q w)) /\
  (exists rest, trace (snd (Image_save pil a q w)) = trace w ++ rest) /\
  (fst (Image_save pil a q w) = Ok tt ->
   lookup (files (snd (Image_save pil a q w))) q = Some (ImageFile (ModeL a))).
Proof.
  unfold Image_save, log, bind_file.
  destruct (known_extension pil (name q)); cbn;
    [|repeat split; [exists []; now rewrite app_nil_r | discriminate]].
  destruct (is_dir (files w) q); cbn; [repeat split; [eauto | discriminate]|].
  destruct (is_dir (files w) (parent q)); cbn.
  - repeat split; [eauto|]. intros _. apply lookup_bind_same.
  - repeat split; eauto; discriminate.
Qed.

(** The end of the script (lines 82-92) on two water maps. *)
Lemma write_output_content (pil : PIL) (p : Path) (o : option Path)
    (wm wm' : grid Z) (w : World) :
  let k := fun a : grid Z =>
             (out <- resolve_output_path p o ;; Image_save pil a out ;; ret out)%io in
  fst (k wm w) = fst (k wm' w) /\
  trace (snd (k wm w)) = trace (snd (k wm' w)) /\
  stdout (snd (k wm w)) = stdout (snd (k wm' w)) /\
  (exists rest, trace (snd (k wm w)) = trace w ++ rest) /\
  (forall out, fst (k wm w) = Ok out ->
     lookup (files (snd (k wm w))) out = Some (ImageFile (ModeL wm))).
Proof.
  cbv zeta. unfold bind.
  destruct (resolve_output_path_trace p o w) as (rest & Ht & _).
  destruct (resolve_output_path p o w) as [[q|e] w1]; cbn [fst snd] in *.
  - destruct (Image_save_content pil wm wm' q w1) as (E1 & E2 & E3 & (rest' & E4) & E5).
    destruct (Image_save pil wm q w1) as [[[]|e] w2];
      destruct (Image_save pil wm' q w1) as [[[]|e'] w2'];
      cbn [fst snd] in *; try discriminate.
    + unfold ret; cbn [fst snd]. repeat split; try assumption.
      * exists (rest ++ rest'). rewrite E4, Ht. now rewrite app_assoc.
      * intros out [= <-]. apply E5. reflexivity.
    + repeat split; try assumption; try congruence; try discriminate.
      exists (rest ++ rest'). rewrite E4, Ht. now rewrite app_assoc.
  - repeat split; eauto. discriminate.
Qed.

(** The run, step by step: every way out before the smoothing step leaves
    the world with the attempt to open the input as its only trace. *)
Lemma generate_water_map_steps (pil : PIL) (scipy : option ndimage) (p : Path) (t : Z)
    (o : option Path) (smooth : bool) (sigma : pyfloat) (w : World) :
  generate_water_map pil scipy p t o smooth sigma w
  = match lookup (files w) p with
    | Some (ImageFile img) =>
        match load_pixels pil img with
        | Ok pixels =>
            match (if smooth then apply_water_smoothing scipy (water_mask pixels t) sigma
                   else ret (water_mask pixels t)) (log (EvOpen p) w) with
            | (Ok wm, w1) =>
                (out <- resolve_output_path p o ;; Image_save pil wm out ;; ret out)%io w1
            | (Raise e, w1) => (Raise e, w1)
            end
        | Raise e => (Raise e, log (EvOpen p) w)
        end
    | Some OtherFile => (Raise UnidentifiedImageError, log (EvOpen p) w)
    | Some Directory => (Raise IsADirectoryError, log (EvOpen p) w)
    | None =>
        (Raise (if is_dir (files w) p then IsADirectoryError
                else path_error (files w) p), log (EvOpen p) w)
    end.
Proof.
  unfold generate_water_map. unfold bind at 1. unfold Image_open.
  destruct (lookup (files w) p) as [[|img|]|]; reflexivity.
Qed.

(** C4, as the code has it: no configuration is rejected and no
    InvalidParameterError exists.  Whatever the threshold (also outside
    0..255), the smoothing flag and sigma (also at or below 0), a run is
    never turned away before I/O: its first action is opening the input
    file.  With smoothing off or scipy missing, its result (the returned
    path or the exception), the file operations it performs and what it
    prints are the same for any two thresholds and any two sigmas.  And a
    run that returns has written an image at the returned path. *)
Theorem no_parameter_validation (pil : PIL) (scipy : option ndimage)
    (heightmap_path : Path) (threshold threshold' : Z) (output_path : option Path)
    (smooth : bool) (sigma sigma' : pyfloat) (w : World) :
  let r := generate_water_map pil scipy heightmap_path threshold output_path smooth sigma w in
  let r' := generate_water_map pil scipy heightmap_path threshold' output_path smooth sigma' w in
  (exists rest, trace (snd r) = trace w ++ EvOpen heightmap_path :: rest) /\
  ~ rejected_before_io
      (generate_water_map pil scipy heightmap_path threshold output_path smooth sigma) w /\
  (smooth = false \/ scipy = None ->
   fst r = fst r' /\
   trace (snd r) = trace (snd r') /\
   stdout (snd r) = stdout (snd r')) /\
  (forall out, fst r = Ok out ->
     exists wm, lookup (files (snd r)) out = Some (ImageFile (ModeL wm))).
Proof.
  cbv zeta.
  assert (Open : exists rest,
             trace (snd (generate_water_map pil scipy heightmap_path threshold output_path
                           smooth sigma w))
             = trace w ++ EvOpen heightmap_path :: rest
             /\ (smooth = false \/ scipy = None ->
                 fst (generate_water_map pil scipy heightmap_path threshold output_path
                        smooth sigma w)
                 = fst (generate_water_map pil scipy heightmap_path threshold' output_path
                          smooth sigma' w) /\
                 trace (snd (generate_water_map pil scipy heightmap_path threshold
                               output_path smooth sigma w))
                 = trace (snd (generate_water_map pil scipy heightmap_path threshold'
                                 output_path smooth sigma' w)) /\
                 stdout (snd (generate_water_map pil scipy heightmap_path threshold
                                output_path smooth sigma w))
                 = stdout (snd (generate_water_map pil scipy heightmap_path threshold'
                                  output_path smooth sigma' w)))
             /\ (forall out,
                    fst (generate_water_map pil scipy heightmap_path threshold output_path
                           smooth sigma w) = Ok out ->
                    exists wm,
                      lookup (files (snd (generate_water_map pil scipy heightmap_path
                                            threshold output_path smooth sigma w))) out
                      = Some (ImageFile (ModeL wm)))).
  { rewrite !generate_water_map_steps.
    destruct (lookup (files w) heightmap_path) as [[|img|]|];
      try (exists []; cbn; repeat split; intros; discriminate).
    destruct (load_pixels pil img) as [pixels|e];
      [|exists []; cbn; repeat split; intros; discriminate].
    destruct (smoothing_step scipy smooth (water_mask pixels threshold) sigma
                (log (EvOpen heightmap_path) w)) as [wm ->].
    destruct (smoothing_step scipy smooth (water_mask pixels threshold') sigma'
                (log (EvOpen heightmap_path) w)) as [wm' ->].
    set (w1 := MkWorld _ _ _).
    destruct (write_output_content pil heightmap_path output_path wm wm' w1)
      as (E1 & E2 & E3 & (rest & E4) & E5).
    cbv zeta beta in E1, E2, E3, E4, E5.
    exists rest. split; [|split].
    - rewrite E4. unfold w1. cbn [trace log]. rewrite <- app_assoc. reflexivity.
    - intros _. repeat split; assumption.
    - intros out Hout. exists wm. apply E5. exact Hout. }
  destruct Open as (rest & Htrace & Hsame & Hfile).
  split; [exists rest; exact Htrace|].
  split; [|split; assumption].
  intros [e E]. rewrite E in Htrace. cbn [snd] in Htrace.
  apply (f_equal (@List.length io_event)) in Htrace.
  rewrite length_app in Htrace. cbn in Htrace. lia.
Qed.

Lemma no_parameter_validation_witness :
  let r := generate_water_map pillow None (in_heightmaps "island.png") 300 None true
             (F32.Dy 0 0) sample_world in
  let r' := generate_water_map pillow None (in_heightmaps "island.png") 40 None true
              (F32.Dy 1 1) sample_world in
  fst r = fst r' /\
  fst r = Ok (in_watermaps "island.png") /\
  exists wm, lookup (files (snd r)) (in_watermaps "island.png") = Some (ImageFile (ModeL wm)).
Proof.
  cbv zeta.
  destruct (no_parameter_validation pillow None (in_heightmaps "island.png") 300 40 None true
              (F32.Dy 0 0) (F32.Dy 1 1) sample_world) as (_ & _ & Hsame & Hfile).
  destruct (Hsame (or_intror eq_refl)) as (Hres & _ & _).
  split; [exact Hres|]. split; [reflexivity|].
  apply Hfile. reflexivity.
Defined.

(** C4 as stated fails: a threshold of 300, and a sigma of 0 with
    smoothing requested (with scipy missing or present), are not rejected.
    Each run opens the input, creates the output directory, saves the water
    map and returns its path. *)
Lemma invalid_configuration_runs :
  let input := in_heightmaps "island.png" in
  let out := in_watermaps "island.png" in
  let io := [EvOpen input; EvMkdir (MkPath "" ["maps"; "derived-watermaps"]%string);
             EvSave out] in
  let bad_threshold := generate_water_map pillow None input 300 None false (F32.Dy 1 1) in
  let bad_sigma := generate_water_map pillow None input 40 None true (F32.Dy 0 0) in
  let bad_sigma_scipy :=
    generate_water_map pillow (Some tiny_sigma_filter) input 40 None true (F32.Dy 0 0) in
  (~ rejected_before_io bad_threshold sample_world /\
   fst (bad_threshold sample_world) = Ok out /\
   trace (snd (bad_threshold sample_world)) = io /\
   lookup (files (snd (bad_threshold sample_world))) out
   = Some (ImageFile (ModeL [[255; 255; 255]; [255; 255; 255]])))
  /\
  (~ rejected_before_io bad_sigma sample_world /\
   fst (bad_sigma sample_world) = Ok out /\
   trace (snd (bad_sigma sample_world)) = io /\
   lookup (files (snd (bad_sigma sample_world))) out
   = Some (ImageFile (ModeL [[255; 255; 0]; [0; 0; 0]])))
  /\
  (~ rejected_before_io bad_sigma_scipy sample_world /\
   fst (bad_sigma_scipy sample_world) = Ok out /\
   trace (snd (bad_sigma_scipy sample_world)) = io /\
   lookup (files (snd (bad_sigma_scipy sample_world))) out
   = Some (ImageFile (ModeL [[255; 255; 0]; [0; 0; 0]]))).
Proof.
  cbv zeta. unfold rejected_before_io.
  repeat split; try reflexivity; intros [e E]; vm_compute in E; discriminate.
Qed.


(** * Further properties of the script *)

(** ** The run after a successful load *)

(** Once the image is open and its pixels are loaded, the run is the
    smoothing step followed by the end of the script, on a world that has
    only gained the open attempt and, when scipy is missing, the warning. *)
Lemma run_after_load (pil : PIL) (scipy : option ndimage) (hp : Path) (t : Z)
    (o : option Path) (smooth : bool) (sigma : pyfloat) (w : World)
    (img : Image) (pixels : grid Z) :
  lookup (files w) hp = Some (ImageFile img) ->
  load_pixels pil img = Ok pixels ->
  exists wm,
    shape wm = shape pixels /\
    (smooth = false \/ scipy = None -> wm = water_mask pixels t) /\
    generate_water_map pil scipy hp t o smooth sigma w
    = (out <- resolve_output_path hp o ;; Image_save pil wm out ;; ret out)%io
        (MkWorld (files w)
                 (stdout w ++ match smooth, scipy with
                              | true, None => scipy_warning
                              | _, _ => []
                              end)
                 (trace w ++ [EvOpen hp])).
Proof.
  intros Hin Hload. rewrite generate_water_map_steps, Hin, Hload.
  destruct smooth; [destruct scipy as [nd|]|].
  - exists (map2d unit_to_uint8
              (gaussian_filter nd
                 (map2d (fun v => F32.div (F32.of_int v) (F32.of_int 255))
                    (water_mask pixels t)) sigma)).
    split; [|split].
    + rewrite shape_map2d, gaussian_filter_shape, shape_map2d.
      unfold water_mask. apply shape_map2d.
    + intros [H|H]; discriminate.
    + cbn [apply_water_smoothing ret log files stdout trace].
      rewrite app_nil_r. reflexivity.
  - exists (water_mask pixels t). split; [apply shape_map2d|]. split; [reflexivity|].
    unfold apply_water_smoothing, bind, print, ret, scipy_warning, log.
    cbn [files stdout trace]. rewrite <- app_assoc. reflexivity.
  - exists (water_mask pixels t). split; [apply shape_map2d|]. split; [reflexivity|].
    unfold ret at 1. cbn [log files stdout trace]. rewrite app_nil_r. reflexivity.
Qed.

(** The path handed to the save is the resolved one, and resolving binds
    at most the default directory. *)
Lemma resolve_output_path_result (hp : Path) (o : option Path) (w : World) :
  (forall p, fst (resolve_output_path hp o w) = Ok p -> p = resolved_output hp o) /\
  (forall q, (o = None -> q <> default_output_dir hp) ->
     lookup (files (snd (resolve_output_path hp o w))) q = lookup (files w) q).
Proof.
  destruct o as [p0|].
  - cbn. split; [intros p E; congruence | reflexivity].
  - unfold resolve_output_path, resolved_output. fold (default_output_dir hp).
    unfold bind, mkdir_exist_ok, ret, log, bind_file. cbn [files stdout trace].
    destruct (is_dir (files w) (default_output_dir hp)).
    { cbn [fst snd files]. split; [intros p E; congruence | reflexivity]. }
    destruct (lookup (files w) (default_output_dir hp)).
    { cbn [fst snd files]. split; [discriminate | reflexivity]. }
    destruct (is_dir (files w) (parent (default_output_dir hp))).
    { cbn [fst snd files]. split; [intros p E; congruence|].
      intros q Hq. apply lookup_bind_other. apply Hq. reflexivity. }
    destruct (lookup (files w) (parent (default_output_dir hp)));
      cbn [fst snd files]; (split; [discriminate | reflexivity]).
Qed.

Lemma Image_save_frame (pil : PIL) (a : grid Z) (p q : Path) (w : World) :
  q <> p -> lookup (files (snd (Image_save pil a p w))) q = lookup (files w) q.
Proof.
  intros Hq. unfold Image_save, log, bind_file.
  destruct (known_extension pil (name p)); [|reflexivity].
  destruct (is_dir (files w) p); [reflexivity|].
  destruct (is_dir (files w) (parent p)); cbn.
  - apply lookup_bind_other. exact Hq.
  - destruct (lookup (files w) (parent p)); reflexivity.
Qed.

(** The end of the script binds nothing but the output path and the
    default directory, and returns the resolved path. *)
Lemma write_output_frame (pil : PIL) (hp : Path) (o : option Path) (wm : grid Z)
    (w : World) :
  let r := (out <- resolve_output_path hp o ;; Image_save pil wm out ;; ret out)%io w in
  (forall out, fst r = Ok out -> out = resolved_output hp o) /\
  (forall q, q <> resolved_output hp o -> (o = None -> q <> default_output_dir hp) ->
     lookup (files (snd r)) q = lookup (files w) q).
Proof.
  cbv zeta. unfold bind.
  destruct (resolve_output_path_result hp o w) as [Hp Hf].
  destruct (resolve_output_path hp o w) as [[p|e] w1]; cbn [fst snd] in *.
  - specialize (Hp p eq_refl). subst p.
    pose proof (Image_save_frame pil wm (resolved_output hp o)) as Hs.
    destruct (Image_save pil wm (resolved_output hp o) w1) as [[[]|e] w2] eqn:E;
      cbn [fst snd]; (split; [unfold ret; cbn; intros out [= <-] || discriminate; reflexivity|]);
      intros q Hq Hd; specialize (Hs q w1 Hq); rewrite E in Hs; cbn [snd] in Hs;
      unfold ret; cbn [snd]; rewrite Hs; apply Hf; exact Hd.
  - split; [discriminate|]. intros q _ Hd. apply Hf. exact Hd.
Qed.

(** X1: among path names that cannot alias (the same anchor, no empty,
    [.] or [..] component; the world has no links), a run, whether it
    returns or raises, changes no path of the file system other than the
    resolved output path and, under the default rule, the derived-watermaps
    directory; every other file is as before, and so is the input height
    map when it is such a path. *)
Theorem run_changes_only_output (pil : PIL) (scipy : option ndimage) (hp : Path)
    (t : Z) (o : option Path) (smooth : bool) (sigma : pyfloat) (w : World) (q : Path) :
  comparable q (resolved_output hp o) ->
  q <> resolved_output hp o ->
  (o = None -> q <> default_output_dir hp) ->
  lookup (files (snd (generate_water_map pil scipy hp t o smooth sigma w))) q
  = lookup (files w) q.
Proof.
  intros _ Hq Hd.
  destruct (lookup (files w) hp) as [[|img|]|] eqn:Hin;
    try (rewrite generate_water_map_steps, Hin; reflexivity).
  destruct (load_pixels pil img) as [pixels|e] eqn:Hload;
    [|rewrite generate_water_map_steps, Hin, Hload; reflexivity].
  destruct (run_after_load pil scipy hp t o smooth sigma w img pixels Hin Hload)
    as (wm & _ & _ & ->).
  destruct (write_output_frame pil hp o wm
              (MkWorld (files w)
                 (stdout w ++ match smooth, scipy with
                              | true, None => scipy_warning
                              | _, _ => []
                              end)
                 (trace w ++ [EvOpen hp]))) as [_ Hf].
  cbv zeta in Hf. rewrite (Hf q Hq Hd). reflexivity.
Qed.

Lemma run_changes_only_output_witness :
  lookup (files (snd (generate_water_map pillow None (in_heightmaps "island.png") 40 None
                        true tiny_sigma sample_world)))
         (in_heightmaps "island.png")
  = lookup (files sample_world) (in_heightmaps "island.png").
Proof.
  apply (run_changes_only_output pillow None (in_heightmaps "island.png") 40 None true
           tiny_sigma sample_world (in_heightmaps "island.png")).
  - split; [reflexivity|].
    split; intros c [<-|[<-|[<-|[]]]]; repeat split; discriminate.
  - discriminate.
  - intros _. discriminate.
Defined.

(** X2: a run that returns, with smoothing off or scipy missing, returns
    the resolved output path and has stored there exactly the thresholded
    intensity grid of the image at the input path. *)
Theorem returned_run_stored_mask (pil : PIL) (scipy : option ndimage) (hp : Path)
    (t : Z) (o : option Path) (smooth : bool) (sigma : pyfloat) (w : World) (out : Path) :
  smooth = false \/ scipy = None ->
  fst (generate_water_map pil scipy hp t o smooth sigma w) = Ok out ->
  out = resolved_output hp o /\
  exists img pixels,
    lookup (files w) hp = Some (ImageFile img) /\
    load_pixels pil img = Ok pixels /\
    lookup (files (snd (generate_water_map pil scipy hp t o smooth sigma w))) out
    = Some (ImageFile (ModeL (water_mask pixels t))).
Proof.
  intros Hplain Hret.
  destruct (lookup (files w) hp) as [[|img|]|] eqn:Hin;
    try (rewrite generate_water_map_steps, Hin in Hret; discriminate).
  destruct (load_pixels pil img) as [pixels|e] eqn:Hload;
    [|rewrite generate_water_map_steps, Hin, Hload in Hret; discriminate].
  destruct (run_after_load pil scipy hp t o smooth sigma w img pixels Hin Hload)
    as (wm & _ & Hwm & E).
  rewrite (Hwm Hplain) in E. rewrite E in *.
  set (w1 := MkWorld _ _ _) in *.
  destruct (write_output_frame pil hp o (water_mask pixels t) w1) as [Hp _].
  destruct (write_output_content pil hp o (water_mask pixels t) (water_mask pixels t) w1)
    as (_ & _ & _ & _ & Hc).
  cbv zeta in Hp, Hc.
  split; [apply Hp; exact Hret|].
  exists img, pixels. split; [reflexivity|]. split; [exact Hload|].
  apply Hc. exact Hret.
Qed.

Lemma returned_run_stored_mask_witness :
  in_watermaps "island.png" = resolved_output (in_heightmaps "island.png") None /\
  exists img pixels,
    lookup (files sample_world) (in_heightmaps "island.png") = Some (ImageFile img) /\
    load_pixels pillow img = Ok pixels /\
    lookup (files (snd (generate_water_map pillow (Some tiny_sigma_filter)
                          (in_heightmaps "island.png") 40 None false tiny_sigma
                          sample_world)))
           (in_watermaps "island.png")
    = Some (ImageFile (ModeL (water_mask pixels 40))).
Proof.
  apply (returned_run_stored_mask pillow (Some tiny_sigma_filter)
           (in_heightmaps "island.png") 40 None false tiny_sigma sample_world
           (in_watermaps "island.png")).
  - left. reflexivity.
  - reflexivity.
Defined.

(** ** Output paths *)




Lemma first_obstacle_stops (fs : list (Path * node)) (above below : list Path) (a : Path) :
  Forall (fun d => lookup fs d = Some Directory) above ->
  (lookup fs a = None -> first_obstacle fs (above ++ a :: below) = FileNotFoundError) /\
  (forall n, lookup fs a = Some n -> n <> Directory ->
             first_obstacle fs (above ++ a :: below) = NotADirectoryError).
Proof.
  induction 1 as [|d above Hd _ IH]; cbn.
  - split; [intros -> ; reflexivity|]. intros n -> Hn. destruct n; congruence.
  - rewrite Hd. exact IH.
Qed.

Lemma first_obstacle_none (fs : list (Path * node)) (dirs : list Path) :
  Forall (fun d => lookup fs d = Some Directory) dirs ->
  first_obstacle fs dirs = FileNotFoundError.
Proof.
  induction 1 as [|d dirs Hd _ IH]; cbn; [reflexivity|]. now rewrite Hd.
Qed.








(** ** Failing runs *)

(** X7: when the input path does not name an image, the run raises
    after the open attempt, which is its only file operation; nothing is
    printed and nothing is created.  The exception is IsADirectoryError
    for a directory, UnidentifiedImageError for a file that is not an
    image, and for a path that is not there that of the first ancestor
    that is not a directory: FileNotFoundError when it is missing (or when
    every ancestor is a directory), NotADirectoryError when it is a file. *)
Theorem unreadable_input_fails (pil : PIL) (scipy : option ndimage) (hp : Path)
    (t : Z) (o : option Path) (smooth : bool) (sigma : pyfloat) (w : World) :
  (forall img, lookup (files w) hp <> Some (ImageFile img)) ->
  exists e,
    generate_water_map pil scipy hp t o smooth sigma w
    = (Raise e, MkWorld (files w) (stdout w) (trace w ++ [EvOpen hp])) /\
    (lookup (files w) hp = Some Directory -> e = IsADirectoryError) /\
    (lookup (files w) hp = Some OtherFile -> e = UnidentifiedImageError) /\
    (lookup (files w) hp = None -> is_dir (files w) hp = true -> e = IsADirectoryError) /\
    (lookup (files w) hp = None -> is_dir (files w) hp = false ->
     (Forall (fun d => lookup (files w) d = Some Directory) (ancestors hp) ->
      e = FileNotFoundError) /\
     (forall above a below,
         ancestors hp = above ++ a :: below ->
         Forall (fun d => lookup (files w) d = Some Directory) above ->
         (lookup (files w) a = None -> e = FileNotFoundError) /\
         (forall n, lookup (files w) a = Some n -> n <> Directory ->
                    e = NotADirectoryError))).
Proof.
  intros Hno. rewrite generate_water_map_steps.
  destruct (lookup (files w) hp) as [[|img|]|] eqn:L.
  - exists IsADirectoryError. repeat split; congruence.
  - exfalso. apply (Hno img). reflexivity.
  - exists UnidentifiedImageError. repeat split; congruence.
  - destruct (is_dir (files w) hp) eqn:D.
    + exists IsADirectoryError. repeat split; congruence.
    + exists (path_error (files w) hp). split; [reflexivity|].
      split; [discriminate|]. split; [discriminate|]. split; [discriminate|].
      intros _ _. split.
      * apply first_obstacle_none.
      * intros above a below E Habove. unfold path_error. rewrite E.
        apply first_obstacle_stops. exact Habove.
Qed.

Lemma unreadable_input_fails_witness :
  generate_water_map pillow None (MkPath "" ["notes.txt"%string]) 40 None true
    tiny_sigma field_world
  = (Raise UnidentifiedImageError,
     MkWorld (files field_world) (stdout field_world)
             (trace field_world ++ [EvOpen (MkPath "" ["notes.txt"%string])]))
  /\
  generate_water_map pillow None (MkPath "" ["scans"; "lost.png"]%string) 40 None true
    tiny_sigma field_world
  = (Raise FileNotFoundError,
     MkWorld (files field_world) (stdout field_world)
             (trace field_world ++ [EvOpen (MkPath "" ["scans"; "lost.png"]%string)]))
  /\
  generate_water_map pillow None (MkPath "" ["notes.txt"; "x.png"]%string) 40 None true
    tiny_sigma field_world
  = (Raise NotADirectoryError,
     MkWorld (files field_world) (stdout field_world)
             (trace field_world ++ [EvOpen (MkPath "" ["notes.txt"; "x.png"]%string)])).
Proof.
  split; [|split].
  - destruct (unreadable_input_fails pillow None (MkPath "" ["notes.txt"%string]) 40 None
                true tiny_sigma field_world ltac:(intros img; discriminate))
      as (e & Hrun & _ & Hjunk & _).
    rewrite (Hjunk eq_refl) in Hrun. exact Hrun.
  - destruct (unreadable_input_fails pillow None (MkPath "" ["scans"; "lost.png"]%string) 40
                None true tiny_sigma field_world ltac:(intros img; discriminate))
      as (e & Hrun & _ & _ & _ & Hgone).
    destruct (Hgone eq_refl eq_refl) as [Hall _].
    rewrite Hall in Hrun; [exact Hrun|]. repeat constructor.
  - destruct (unreadable_input_fails pillow None (MkPath "" ["notes.txt"; "x.png"]%string) 40
                None true tiny_sigma field_world ltac:(intros img; discriminate))
      as (e & Hrun & _ & _ & _ & Hgone).
    destruct (Hgone eq_refl eq_refl) as [_ Hwalk].
    destruct (Hwalk [] (MkPath "" ["notes.txt"%string]) [] eq_refl (Forall_nil _))
      as [_ Hfile].
    rewrite (Hfile OtherFile eq_refl ltac:(discriminate)) in Hrun. exact Hrun.
Defined.

Lemma normalize16_empty (px : grid Z) :
  concat px = [] -> normalize16 px = Raise ValueError.
Proof.
  intros E. unfold normalize16, amax, map2d.
  rewrite <- concat_map, E. reflexivity.
Qed.

(** X8: a 16-bit image (mode I or I;16) without pixels makes the run raise
    ValueError at the maximum of line 64, right after the open: nothing is
    written and no directory is created. *)
Theorem empty_16bit_image_fails (pil : PIL) (scipy : option ndimage) (hp : Path)
    (t : Z) (o : option Path) (smooth : bool) (sigma : pyfloat) (w : World)
    (img : Image) (px : grid Z) :
  lookup (files w) hp = Some (ImageFile img) ->
  img = ModeI px \/ img = ModeI16 px ->
  concat px = [] ->
  generate_water_map pil scipy hp t o smooth sigma w
  = (Raise ValueError, MkWorld (files w) (stdout w) (trace w ++ [EvOpen hp])).
Proof.
  intros Hin Hmode Hpx. rewrite generate_water_map_steps, Hin.
  assert (E : load_pixels pil img = Raise ValueError).
  { destruct Hmode as [-> | ->]; cbn; apply normalize16_empty; exact Hpx. }
  rewrite E. reflexivity.
Qed.

Lemma empty_16bit_image_fails_witness :
  generate_water_map pillow None (MkPath "" ["scans"; "void.png"]%string) 40 None false
    tiny_sigma field_world
  = (Raise ValueError,
     MkWorld (files field_world) (stdout field_world)
             (trace field_world ++ [EvOpen (MkPath "" ["scans"; "void.png"]%string)])).
Proof.
  apply (empty_16bit_image_fails pillow None (MkPath "" ["scans"; "void.png"]%string) 40
           None false tiny_sigma field_world (ModeI16 [[]; []]) [[]; []]).
  - reflexivity.
  - right. reflexivity.
  - reflexivity.
Defined.





(** ** More on the threshold *)

(** X11: raising the threshold never dries a cell: for t <= t', every
    cell that is water at t is water at t', and cell by cell the mask at t
    is at most the mask at t'. *)
Theorem water_mask_monotone (pixels : grid Z) (t t' : Z) (i j : nat) (a b : Z) :
  t <= t' ->
  cell (water_mask pixels t) i j = Some a ->
  cell (water_mask pixels t') i j = Some b ->
  a <= b /\ (a = 255 -> b = 255).
Proof.
  intros Ht Ha Hb. unfold water_mask in *. rewrite cell_map2d in Ha, Hb.
  destruct (cell pixels i j) as [v|]; [|discriminate].
  cbn in Ha, Hb. injection Ha as <-. injection Hb as <-.
  destruct (Z.ltb_spec v t), (Z.ltb_spec v t'); cbn; lia.
Qed.

Lemma water_mask_monotone_witness :
  0 <= 255 /\ (0 = 255 -> 255 = 255).
Proof.
  apply (water_mask_monotone [[39; 40; 41]] 40 41 0 1 0 255); [lia | reflexivity | reflexivity].
Defined.

(** X12: a threshold outside 0..255 is applied as it is to an 8-bit
    intensity grid: at or below 0 every cell is land, at or above 256 every
    cell is water; at 255 a cell of intensity 255 is still land. *)
Theorem water_mask_saturates (pixels : grid Z) (t : Z) :
  all_cells (fun v => 0 <= v <= 255) pixels ->
  (t <= 0 -> water_mask pixels t = map2d (fun _ => 0) pixels) /\
  (256 <= t -> water_mask pixels t = map2d (fun _ => 255) pixels) /\
  (t = 255 -> forall i j, cell pixels i j = Some 255 ->
              cell (water_mask pixels t) i j = Some 0).
Proof.
  intros Hr. split; [|split].
  - intros Ht. unfold water_mask. apply map2d_ext_on.
    unfold all_cells in *. eapply Forall_impl; [|exact Hr].
    intros row. apply Forall_impl. intros v Hv.
    replace (v <? t) with false by (symmetry; apply Z.ltb_ge; lia). reflexivity.
  - intros Ht. unfold water_mask. apply map2d_ext_on.
    unfold all_cells in *. eapply Forall_impl; [|exact Hr].
    intros row. apply Forall_impl. intros v Hv.
    replace (v <? t) with true by (symmetry; apply Z.ltb_lt; lia). reflexivity.
  - intros -> i j Hc. unfold water_mask. rewrite cell_map2d, Hc. reflexivity.
Qed.

Lemma water_mask_saturates_witness :
  water_mask [[0; 255]] (-3) = [[0; 0]] /\
  water_mask [[0; 255]] 300 = [[255; 255]] /\
  cell (water_mask [[0; 255]] 255) 0 1 = Some 0.
Proof.
  assert (R : all_cells (fun v => 0 <= v <= 255) [[0; 255]])
    by (repeat constructor; lia).
  destruct (water_mask_saturates [[0; 255]] (-3) R) as (Hlow & _ & _).
  destruct (water_mask_saturates [[0; 255]] 300 R) as (_ & Hhigh & _).
  destruct (water_mask_saturates [[0; 255]] 255 R) as (_ & _ & Hedge).
  split; [apply Hlow; lia|]. split; [apply Hhigh; lia|].
  apply Hedge; reflexivity.
Defined.

(** ** More on the normalizer *)

(** X13: whatever the mode of the image, a grid that the normalizer
    returns holds only values from 0 to 255. *)
Theorem load_pixels_bytes (pil : PIL) (img : Image) (pixels : grid Z) :
  load_pixels pil img = Ok pixels ->
  all_cells (fun v => 0 <= v <= 255) pixels.
Proof.
  assert (B : forall v, 0 <= v mod 256 <= 255)
    by (intros v; pose proof (Z.mod_pos_bound v 256 ltac:(lia)); lia).
  assert (N : forall px out, normalize16 px = Ok out ->
                             all_cells (fun v => 0 <= v <= 255) out).
  { intros px out. unfold normalize16.
    destruct (amax _) as [mx|e]; [|discriminate].
    destruct (0 <? mx); intros E; injection E as <-; apply all_cells_map2d;
      intros v; [unfold rescale16, F32.to_uint8 | unfold uint8]; apply B. }
  destruct img as [px|px|px|m px]; cbn; intros E.
  - eapply N; eassumption.
  - eapply N; eassumption.
  - injection E as <-. apply all_cells_map2d. intros v. apply B.
  - injection E as <-. apply all_cells_map2d. intros v. apply B.
Qed.

Lemma load_pixels_bytes_witness :
  all_cells (fun v => 0 <= v <= 255) [[95; 255]; [0; 159]].
Proof.
  apply (load_pixels_bytes pillow (ModeI [[65536 + 3; 8]; [0; 5]]) [[95; 255]; [0; 159]]).
  reflexivity.
Defined.

(** X14: an 8-bit grayscale image goes through the normalizer unchanged. *)
Theorem load_pixels_8bit_unchanged (pil : PIL) (px : grid Z) :
  all_cells (fun v => 0 <= v <= 255) px ->
  load_pixels pil (ModeL px) = Ok px.
Proof.
  intros H. cbn. f_equal. apply map2d_fixes.
  unfold all_cells in *. eapply Forall_impl; [|exact H].
  intros row. apply Forall_impl. intros v. apply uint8_small.
Qed.

Lemma load_pixels_8bit_unchanged_witness :
  load_pixels pillow (ModeL [[0; 39; 40]; [41; 200; 255]])
  = Ok [[0; 39; 40]; [41; 200; 255]].
Proof.
  apply (load_pixels_8bit_unchanged pillow [[0; 39; 40]; [41; 200; 255]]).
  repeat constructor; lia.
Defined.

(** ** More on the smoothing stage *)

(** Every byte survives the trip to [0,1] and back: v / 255 * 255, in
    float32 and truncated, is v again. *)
Lemma byte_round_trip (v : Z) :
  0 <= v <= 255 ->
  unit_to_uint8 (F32.div (F32.of_int v) (F32.of_int 255)) = v.
Proof.
  intros Hv.
  assert (All : forallb (fun n => unit_to_uint8 (F32.div (F32.of_int (Z.of_nat n))
                                                   (F32.of_int 255))
                                  =? Z.of_nat n)
                        (seq 0 256) = true) by (vm_compute; reflexivity).
  rewrite forallb_forall in All.
  specialize (All (Z.to_nat v)). rewrite Z2Nat.id in All by lia.
  apply Z.eqb_eq, All, in_seq. lia.
Qed.

(** X15: the rescale to [0,1] and back loses nothing: when the Gaussian
    filter returns the array it was given (as scipy does for a sigma of at
    most 1e-15, zero and negative values included), the smoothing stage
    returns the water map unchanged, for any map of bytes. *)
Theorem smoothing_round_trip (nd : ndimage) (wm : grid Z) (sigma : pyfloat) (w : World) :
  all_cells (fun v => 0 <= v <= 255) wm ->
  gaussian_filter nd (map2d (fun v => F32.div (F32.of_int v) (F32.of_int 255)) wm) sigma
  = map2d (fun v => F32.div (F32.of_int v) (F32.of_int 255)) wm ->
  apply_water_smoothing (Some nd) wm sigma w = (Ok wm, w).
Proof.
  intros Hb Hid. unfold apply_water_smoothing, ret. rewrite Hid. f_equal. f_equal.
  unfold map2d. rewrite map_map.
  rewrite <- (map_id wm) at 2. apply map_ext_in. intros row Hrow.
  rewrite map_map. rewrite <- (map_id row) at 2. apply map_ext_in. intros v Hv.
  apply byte_round_trip.
  unfold all_cells in Hb. rewrite Forall_forall in Hb. specialize (Hb row Hrow).
  rewrite Forall_forall in Hb. exact (Hb v Hv).
Qed.

Lemma smoothing_round_trip_witness :
  apply_water_smoothing (Some tiny_sigma_filter) [[0; 255; 128]; [1; 254; 77]] tiny_sigma
    sample_world
  = (Ok [[0; 255; 128]; [1; 254; 77]], sample_world).
Proof.
  apply (smoothing_round_trip tiny_sigma_filter [[0; 255; 128]; [1; 254; 77]] tiny_sigma
           sample_world).
  - repeat constructor; lia.
  - reflexivity.
Defined.

(** X16: the clip makes the conversion after the filter saturate: a
    filtered value at or below 0 is stored as 0, a value above 1 as 255,
    and every value as a byte. *)
Theorem unit_to_uint8_saturates (x : F32.dyadic) :
  0 <= unit_to_uint8 x <= 255 /\
  (F32.leb x (F32.of_int 0) = true -> unit_to_uint8 x = 0) /\
  (F32.leb x (F32.of_int 1) = false -> unit_to_uint8 x = 255).
Proof.
  split; [apply unit_to_uint8_is_trunc|]. split.
  - intros L. unfold unit_to_uint8, F32.clip, F32.maximum. rewrite L. reflexivity.
  - intros L.
    assert (L0 : F32.leb x (F32.of_int 0) = false).
    { destruct x as [m e]. unfold F32.leb, F32.of_int in *. cbn [F32.mant F32.expo] in *.
      apply Z.leb_gt in L. apply Z.leb_gt.
      assert (0 < 2 ^ (0 - Z.min e 0)) by (apply F32Facts.pow2_pos; lia).
      assert (0 < 2 ^ (e - Z.min e 0)) by (apply F32Facts.pow2_pos; lia).
      nia. }
    unfold unit_to_uint8, F32.clip, F32.maximum, F32.minimum. rewrite L0, L. reflexivity.
Qed.

Lemma unit_to_uint8_saturates_witness :
  unit_to_uint8 (F32.Dy (-3) (-2)) = 0 /\ unit_to_uint8 (F32.Dy 5 (-2)) = 255.
Proof.
  destruct (unit_to_uint8_saturates (F32.Dy (-3) (-2))) as (_ & Hlow & _).
  destruct (unit_to_uint8_saturates (F32.Dy 5 (-2))) as (_ & _ & Hhigh).
  split; [apply Hlow | apply Hhigh]; reflexivity.
Defined.

(** The end of the script prints nothing. *)
Lemma write_output_silent (pil : PIL) (hp : Path) (o : option Path) (wm : grid Z)
    (w : World) :
  stdout (snd ((out <- resolve_output_path hp o ;; Image_save pil wm out ;; ret out)%io w))
  = stdout w.
Proof.
  unfold bind.
  destruct (resolve_output_path_trace hp o w) as (rest & _ & Hs).
  destruct (resolve_output_path hp o w) as [[p|e] w1]; cbn [snd] in *; [|exact Hs].
  unfold Image_save, log, bind_file, ret.
  destruct (known_extension pil (name p)); [|exact Hs].
  destruct (is_dir (files w1) p); [exact Hs|].
  destruct (is_dir (files w1) (parent p)); [exact Hs|].
  destruct (lookup (files w1) (parent p)); exact Hs.
Qed.

(** X17: a run prints nothing, whether it returns or raises, unless
    smoothing is requested while scipy is missing; in that case, once the
    image is loaded, it prints exactly the two lines of the warning. *)
Theorem run_output_lines (pil : PIL) (scipy : option ndimage) (hp : Path)
    (t : Z) (o : option Path) (smooth : bool) (sigma : pyfloat) (w : World) :
  (smooth = false \/ scipy <> None ->
   stdout (snd (generate_water_map pil scipy hp t o smooth sigma w)) = stdout w)
  /\
  (forall img pixels,
      smooth = true -> scipy = None ->
      lookup (files w) hp = Some (ImageFile img) ->
      load_pixels pil img = Ok pixels ->
      stdout (snd (generate_water_map pil scipy hp t o smooth sigma w))
      = stdout w ++ scipy_warning).
Proof.
  split.
  - intros Hq.
    destruct (lookup (files w) hp) as [[|img|]|] eqn:Hin;
      try (rewrite generate_water_map_steps, Hin; reflexivity).
    destruct (load_pixels pil img) as [pixels|e] eqn:Hload;
      [|rewrite generate_water_map_steps, Hin, Hload; reflexivity].
    destruct (run_after_load pil scipy hp t o smooth sigma w img pixels Hin Hload)
      as (wm & _ & _ & ->).
    rewrite write_output_silent. cbn [stdout].
    destruct smooth; [destruct scipy|]; try apply app_nil_r.
    destruct Hq as [Hq|Hq]; [discriminate | congruence].
  - intros img pixels -> -> Hin Hload.
    destruct (run_after_load pil None hp t o true sigma w img pixels Hin Hload)
      as (wm & _ & _ & ->).
    rewrite write_output_silent. reflexivity.
Qed.

Lemma run_output_lines_witness :
  stdout (snd (generate_water_map pillow (Some tiny_sigma_filter)
                 (in_heightmaps "island.png") 40 None true tiny_sigma sample_world))
  = stdout sample_world
  /\
  stdout (snd (generate_water_map pillow None (in_heightmaps "island.png") 40 None true
                 tiny_sigma sample_world))
  = stdout sample_world ++ scipy_warning.
Proof.
  destruct (run_output_lines pillow (Some tiny_sigma_filter) (in_heightmaps "island.png") 40
              None true tiny_sigma sample_world) as [Hquiet _].
  destruct (run_output_lines pillow None (in_heightmaps "island.png") 40 None true
              tiny_sigma sample_world) as [_ Hwarn].
  split.
  - apply Hquiet. right. discriminate.
  - apply (Hwarn (ModeL [[0; 39; 40]; [41; 200; 255]]) [[0; 39; 40]; [41; 200; 255]]);
      reflexivity.
Defined.

(** ** The batch driver *)

Section BatchFacts.
Variable executable : string.
Variable str_float : pyfloat -> string.
Variable subprocess_run : list string -> World -> World.

Lemma process_commands (args : BatchArgs) (heightmaps : list Path) (w : World) :
  fst (process executable str_float subprocess_run args heightmaps w)
  = map (command executable str_float args) heightmaps.
Proof.
  revert w. induction heightmaps as [|h rest IH]; intros w; [reflexivity|].
  cbn [process]. cbv zeta.
  specialize (IH (subprocess_run (command executable str_float args h)
                    (say bar (say ("Processing: " ++ name h) (say (newline ++ bar) w))))).
  destruct (process executable str_float subprocess_run args rest _) as [cmds w'].
  cbn [fst map] in *. now rewrite IH.
Qed.

Lemma process_same_commands (args args' : BatchArgs) (heightmaps : list Path) (w : World) :
  (forall h, command executable str_float args h = command executable str_float args' h) ->
  process executable str_float subprocess_run args heightmaps w
  = process executable str_float subprocess_run args' heightmaps w.
Proof.
  intros Hc. revert w. induction heightmaps as [|h rest IH]; intros w; [reflexivity|].
  cbn [process]. cbv zeta. rewrite (Hc h), IH. reflexivity.
Qed.

Lemma lookup_bound (fs : list (Path * node)) (q : Path) :
  (exists n, lookup fs q = Some n) <-> In q (map fst fs).
Proof.
  induction fs as [|[p n] fs IH]; cbn.
  - split; [intros [n H]; discriminate | tauto].
  - destruct (Path_eq_dec q p) as [->|Hne].
    + split; [auto | eauto].
    + rewrite IH. split; [auto | intros [H|H]; [congruence | exact H]].
Qed.

(** What the glob finds: the paths bound directly under the directory
    whose name ends in .png, each once. *)
Lemma glob_png_spec (fs : list (Path * node)) (d : Path) :
  NoDup (glob_png fs d) /\
  (forall q, In q (glob_png fs d) <->
             is_dir fs d = true /\
             (exists n, lookup fs q = Some n) /\
             parts q <> [] /\ parent q = d /\
             matches_png (name q) = true).
Proof.
  unfold glob_png, entries. destruct (is_dir fs d).
  - split.
    + apply NoDup_filter, NoDup_filter, NoDup_nodup.
    + intros q. rewrite !filter_In, nodup_In, lookup_bound.
      destruct (parts q) as [|c cs] eqn:P.
      * split; [intros [[_ H] _]; discriminate | intros (_ & _ & H & _); congruence].
      * destruct (Path_eq_dec (parent q) d) as [E|E].
        -- split; [intros [[H1 _] H2] | intros (_ & H1 & _ & _ & H2)];
             repeat split; auto; discriminate.
        -- split; [intros [[_ H] _]; discriminate | intros (_ & _ & _ & H & _); congruence].
  - split; [constructor|]. intros q. split; [intros [] | intros [H _]; discriminate].
Qed.

(** X18: a threshold of 0 given to the batch driver is dropped: 0 is
    false in [if args.threshold:], so the whole batch run (exit status,
    child command lines, output) is the one without any threshold, and the
    children fall back to their own default. *)
Theorem batch_threshold_zero_dropped (smooth : bool) (sigma : pyfloat) (w : World) :
  batch_main executable str_float subprocess_run
    {| b_threshold := Some 0; b_smooth := smooth; b_sigma := sigma |} w
  = batch_main executable str_float subprocess_run
      {| b_threshold := None; b_smooth := smooth; b_sigma := sigma |} w.
Proof.
  unfold batch_main. destruct (path_exists (files w) heightmaps_dir); [|reflexivity].
  destruct (glob_png (files w) heightmaps_dir) as [|h hs]; [reflexivity|].
  cbv zeta. cbn [threshold_given b_threshold b_smooth b_sigma Z.eqb].
  rewrite (process_same_commands
             {| b_threshold := Some 0; b_smooth := smooth; b_sigma := sigma |}
             {| b_threshold := None; b_smooth := smooth; b_sigma := sigma |});
    reflexivity.
Qed.

(** X19: when maps/heightmaps is missing, is not a directory or has no
    entry ending in .png, the batch driver exits with status 1 without
    running any child: it prints one line and changes nothing else. *)
Theorem batch_nothing_to_do (args : BatchArgs) (w : World) :
  glob_png (files w) heightmaps_dir = [] ->
  batch_main executable str_float subprocess_run args w
  = (1, [],
     say (if path_exists (files w) heightmaps_dir
          then "No PNG files found in maps/heightmaps"
          else "Error: maps/heightmaps not found")%string w).
Proof.
  intros Hg. unfold batch_main. rewrite Hg.
  destruct (path_exists (files w) heightmaps_dir); reflexivity.
Qed.

(** X20: otherwise the batch driver runs one child per entry of
    maps/heightmaps whose name ends in .png (entries of subdirectories and
    other names are skipped), each with the command line of [command], in
    listing order, whatever the children do, and exits with status 0. *)
Theorem batch_one_child_per_png (args : BatchArgs) (w : World) :
  glob_png (files w) heightmaps_dir <> [] ->
  exists w',
    batch_main executable str_float subprocess_run args w
    = (0, map (command executable str_float args) (glob_png (files w) heightmaps_dir), w')
    /\ NoDup (glob_png (files w) heightmaps_dir)
    /\ (forall q, In q (glob_png (files w) heightmaps_dir) <->
                  (exists n, lookup (files w) q = Some n) /\
                  parent q = heightmaps_dir /\
                  matches_png (name q) = true).
Proof.
  intros Hg.
  destruct (glob_png_spec (files w) heightmaps_dir) as [Hnd Hin].
  assert (Hd : is_dir (files w) heightmaps_dir = true).
  { unfold glob_png in Hg. destruct (is_dir (files w) heightmaps_dir); congruence. }
  assert (He : path_exists (files w) heightmaps_dir = true).
  { unfold is_dir in Hd. unfold path_exists.
    destruct (parts heightmaps_dir); [reflexivity|].
    destruct (lookup (files w) heightmaps_dir); [reflexivity | discriminate]. }
  unfold batch_main. rewrite He.
  destruct (glob_png (files w) heightmaps_dir) as [|h hs] eqn:G; [congruence|].
  cbv zeta.
  match goal with
  | |- context [process _ _ _ args (h :: hs) ?w0] =>
      pose proof (process_commands args (h :: hs) w0) as Hc;
      destruct (process executable str_float subprocess_run args (h :: hs) w0)
        as [cmds w1]
  end.
  cbn [fst] in Hc. subst cmds.
  eexists. split; [reflexivity|]. split; [exact Hnd|].
  intros q. rewrite Hin. split.
  - intros (_ & H1 & _ & H2 & H3). auto.
  - intros (H1 & H2 & H3). repeat split; auto.
    intros P. unfold parent in H2. rewrite P in H2. discriminate.
Qed.

End BatchFacts.

Lemma batch_nothing_to_do_witness :
  batch_main "python3" (fun _ => "2.0"%string) echo_child
    {| b_threshold := None; b_smooth := false; b_sigma := F32.Dy 2 0 |} field_world
  = (1, [],
     say (if path_exists (files field_world) heightmaps_dir
          then "No PNG files found in maps/heightmaps"
          else "Error: maps/heightmaps not found")%string field_world).
Proof.
  apply (batch_nothing_to_do "python3" (fun _ => "2.0"%string) echo_child
           {| b_threshold := None; b_smooth := false; b_sigma := F32.Dy 2 0 |} field_world).
  reflexivity.
Defined.

Lemma batch_one_child_per_png_witness :
  exists w',
    batch_main "python3" (fun _ => "2.0"%string) echo_child
      {| b_threshold := Some 55; b_smooth := true; b_sigma := F32.Dy 2 0 |} batch_world
    = (0,
       map (command "python3" (fun _ => "2.0"%string)
              {| b_threshold := Some 55; b_smooth := true; b_sigma := F32.Dy 2 0 |})
           (glob_png (files batch_world) heightmaps_dir),
       w')
    /\ NoDup (glob_png (files batch_world) heightmaps_dir)
    /\ (forall q, In q (glob_png (files batch_world) heightmaps_dir) <->
                  (exists n, lookup (files batch_world) q = Some n) /\
                  parent q = heightmaps_dir /\
                  matches_png (name q) = true).
Proof.
  apply (batch_one_child_per_png "python3" (fun _ => "2.0"%string) echo_child
           {| b_threshold := Some 55; b_smooth := true; b_sigma := F32.Dy 2 0 |}
           batch_world).
  discriminate.
Defined.

(** ** Running the script again *)

(** The water map a run saves is a function of the pixels and the
    configuration, whatever the world. *)
Lemma run_after_load_uniform (pil : PIL) (scipy : option ndimage) (hp : Path) (t : Z)
    (o : option Path) (smooth : bool) (sigma : pyfloat) (img : Image) (pixels : grid Z) :
  load_pixels pil img = Ok pixels ->
  exists wm,
    forall w,
      lookup (files w) hp = Some (ImageFile img) ->
      generate_water_map pil scipy hp t o smooth sigma w
      = (out <- resolve_output_path hp o ;; Image_save pil wm out ;; ret out)%io
          (MkWorld (files w)
                   (stdout w ++ match smooth, scipy with
                                | true, None => scipy_warning
                                | _, _ => []
                                end)
                   (trace w ++ [EvOpen hp])).
Proof.
  intros Hload.
  exists (match smooth, scipy with
          | true, Some nd =>
              map2d unit_to_uint8
                (gaussian_filter nd
                   (map2d (fun v => F32.div (F32.of_int v) (F32.of_int 255))
                      (water_mask pixels t)) sigma)
          | _, _ => water_mask pixels t
          end).
  intros w Hin. rewrite generate_water_map_steps, Hin, Hload.
  destruct smooth; [destruct scipy as [nd|]|].
  - cbn [apply_water_smoothing ret log files stdout trace].
    rewrite app_nil_r. reflexivity.
  - unfold apply_water_smoothing, bind, print, ret, scipy_warning, log.
    cbn [files stdout trace]. rewrite <- app_assoc. reflexivity.
  - unfold ret at 1. cbn [log files stdout trace]. rewrite app_nil_r. reflexivity.
Qed.

(** What a returning end of the script has found and done. *)
Lemma write_output_returns (pil : PIL) (hp : Path) (o : option Path) (wm : grid Z)
    (w w' : World) (out : Path) :
  (out0 <- resolve_output_path hp o ;; Image_save pil wm out0 ;; ret out0)%io w
  = (Ok out, w') ->
  exists fs',
    (fs' = files w \/
     fs' = (default_output_dir hp, Directory) :: files w /\
     lookup (files w) (default_output_dir hp) = None) /\
    (o = None -> is_dir fs' (default_output_dir hp) = true) /\
    out = resolved_output hp o /\
    known_extension pil (name out) = true /\
    is_dir fs' out = false /\
    is_dir fs' (parent out) = true /\
    files w' = (out, ImageFile (ModeL wm)) :: fs'.
Proof.
  assert (Save : forall p w1 r,
             Image_save pil wm p w1 = (Ok tt, r) ->
             known_extension pil (name p) = true /\
             is_dir (files w1) p = false /\
             is_dir (files w1) (parent p) = true /\
             files r = (p, ImageFile (ModeL wm)) :: files w1).
  { intros p w1 r. unfold Image_save, log, bind_file.
    destruct (known_extension pil (name p)); [|discriminate].
    destruct (is_dir (files w1) p); [discriminate|].
    destruct (is_dir (files w1) (parent p)).
    - intros [= <-]. auto.
    - destruct (lookup (files w1) (parent p)); discriminate. }
  unfold bind. destruct o as [p|].
  - unfold resolve_output_path, ret.
    destruct (Image_save pil wm p w) as [[[]|e] r] eqn:E; [|discriminate].
    intros [= <- <-]. destruct (Save p w r E) as (H1 & H2 & H3 & H4).
    exists (files w). repeat split; auto. discriminate.
  - unfold resolve_output_path, resolved_output. fold (default_output_dir hp).
    set (d := default_output_dir hp).
    unfold bind, mkdir_exist_ok, ret, log, bind_file. cbn [files stdout trace].
    destruct (is_dir (files w) d) eqn:D.
    + match goal with
      | |- context [Image_save pil wm ?p ?w1] =>
          destruct (Image_save pil wm p w1) as [[[]|e] r] eqn:E; [|discriminate];
          destruct (Save p w1 r E) as (H1 & H2 & H3 & H4)
      end.
      intros [= <- <-]. exists (files w). cbn [files] in *. repeat split; auto.
    + destruct (lookup (files w) d) eqn:L; [discriminate|].
      destruct (is_dir (files w) (parent d));
        [|destruct (lookup (files w) (parent d)); discriminate].
      match goal with
      | |- context [Image_save pil wm ?p ?w1] =>
          destruct (Image_save pil wm p w1) as [[[]|e] r] eqn:E; [|discriminate];
          destruct (Save p w1 r E) as (H1 & H2 & H3 & H4)
      end.
      intros [= <- <-]. exists ((d, Directory) :: files w). cbn [files] in *.
      repeat split; auto. intros _. apply is_dir_bind_same.
Qed.

(** X21: running the script a second time with the same arguments, on
    the world the first run left, returns the same path and leaves every
    path of the file system as the first run left it, provided the output
    is not written over the input itself: the input and the output are
    different path names that cannot alias (the same anchor, no empty, [.]
    or [..] component; the world has no links). *)
Theorem rerun_changes_nothing (pil : PIL) (scipy : option ndimage) (hp : Path)
    (t : Z) (o : option Path) (smooth : bool) (sigma : pyfloat) (w w1 : World)
    (out : Path) :
  generate_water_map pil scipy hp t o smooth sigma w = (Ok out, w1) ->
  comparable hp out ->
  hp <> out ->
  exists w2,
    generate_water_map pil scipy hp t o smooth sigma w1 = (Ok out, w2) /\
    forall q, lookup (files w2) q = lookup (files w1) q.
Proof.
  intros Hrun _ Hne.
  destruct (lookup (files w) hp) as [[|img|]|] eqn:Hin;
    try (rewrite generate_water_map_steps, Hin in Hrun; discriminate).
  destruct (load_pixels pil img) as [pixels|e] eqn:Hload;
    [|rewrite generate_water_map_steps, Hin, Hload in Hrun; discriminate].
  destruct (run_after_load_uniform pil scipy hp t o smooth sigma img pixels Hload)
    as [wm Hwm].
  rewrite (Hwm w Hin) in Hrun.
  destruct (write_output_returns pil hp o wm _ w1 out Hrun)
    as (fs' & Hfs & Hd & Hout & Hext & Hnd & Hpd & Hfiles).
  cbn [files] in Hfs.
  (* the input is still there *)
  assert (Hin1 : lookup (files w1) hp = Some (ImageFile img)).
  { rewrite Hfiles, lookup_bind_other by exact Hne.
    destruct Hfs as [-> | [-> Hnone]]; [exact Hin|].
    rewrite lookup_bind_other; [exact Hin|]. intros E. rewrite E in Hin. congruence. }
  rewrite (Hwm w1 Hin1). rewrite Hfiles.
  set (fs1 := (out, ImageFile (ModeL wm)) :: fs').
  assert (Hparts : parts out <> []).
  { intros P. unfold is_dir in Hnd. rewrite P in Hnd. discriminate. }
  assert (Hnd1 : is_dir fs1 out = false).
  { unfold is_dir, fs1. rewrite lookup_bind_same. destruct (parts out); congruence. }
  assert (Hpd1 : is_dir fs1 (parent out) = true).
  { unfold fs1. rewrite is_dir_bind_other; [exact Hpd|]. intros E. congruence. }
  set (w1' := MkWorld fs1 _ _).
  assert (Hres : exists tr,
             resolve_output_path hp o w1' = (Ok out, MkWorld fs1 (stdout w1') tr)).
  { destruct o as [p|].
    - cbn in Hout. subst p. exists (trace w1'). reflexivity.
    - unfold resolve_output_path. fold (default_output_dir hp).
      cbn [resolved_output] in Hout. rewrite <- Hout.
      unfold bind, mkdir_exist_ok, ret, log. cbn [w1' files stdout trace].
      assert (Hd1 : is_dir fs1 (default_output_dir hp) = true).
      { unfold fs1. rewrite is_dir_bind_other; [apply Hd; reflexivity|].
        intros E. rewrite <- E in Hnd. rewrite (Hd eq_refl) in Hnd. discriminate. }
      rewrite Hd1. eexists. reflexivity. }
  destruct Hres as [tr Hres].
  eexists. split.
  - unfold bind at 1. rewrite Hres.
    unfold bind at 1. rewrite Image_save_ok by (cbn [files]; assumption).
    reflexivity.
  - intros q. cbn [files]. unfold fs1. cbn [lookup].
    destruct (Path_eq_dec q out); reflexivity.
Qed.

Lemma rerun_changes_nothing_witness :
  exists w2,
    generate_water_map pillow None (in_heightmaps "island.png") 40 None true tiny_sigma
      (snd (generate_water_map pillow None (in_heightmaps "island.png") 40 None true
              tiny_sigma sample_world))
    = (Ok (in_watermaps "island.png"), w2) /\
    forall q,
      lookup (files w2) q
      = lookup (files (snd (generate_water_map pillow None (in_heightmaps "island.png") 40
                              None true tiny_sigma sample_world))) q.
Proof.
  apply (rerun_changes_nothing pillow None (in_heightmaps "island.png") 40 None true
           tiny_sigma sample_world).
  - reflexivity.
  - split; [reflexivity|].
    split; intros c [<-|[<-|[<-|[]]]]; repeat split; discriminate.
  - discriminate.
Defined.

(** ** The order of the rescaled values *)

Module F32Order.
Import F32 F32Facts.

(** Scaling numerator and denominator together does not change the
    rounded quotient. *)
Lemma rne_div_scale (a b c : Z) : 0 < b -> 0 < c -> rne_div (a * c) (b * c) = rne_div a b.
Proof.
  intros Hb Hc. unfold rne_div.
  rewrite Z.div_mul_cancel_r by lia.
  rewrite Z.mul_mod_distr_r by lia.
  pose proof (Z.mod_pos_bound a b Hb) as B.
  replace (2 * (a mod b * c) <? b * c) with (2 * (a mod b) <? b).
  2:{ destruct (Z.ltb_spec (2 * (a mod b)) b), (Z.ltb_spec (2 * (a mod b * c)) (b * c));
      try reflexivity; nia. }
  replace (b * c <? 2 * (a mod b * c)) with (b <? 2 * (a mod b)).
  2:{ destruct (Z.ltb_spec b (2 * (a mod b))), (Z.ltb_spec (b * c) (2 * (a mod b * c)));
      try reflexivity; nia. }
  reflexivity.
Qed.

Lemma rne_div_floor (a b : Z) : 0 < b -> a / b <= rne_div a b <= a / b + 1.
Proof.
  intros Hb. unfold rne_div.
  destruct (2 * (a mod b) <? b); [lia|].
  destruct (b <? 2 * (a mod b)); [lia|].
  destruct (Z.even (a / b)); lia.
Qed.

(** Rounding to the nearest integer keeps the order of the quotients. *)
Lemma rne_div_mono (a b a' b' : Z) :
  0 < b -> 0 < b' -> a * b' <= a' * b -> rne_div a b <= rne_div a' b'.
Proof.
  intros Hb Hb' Hle.
  pose proof (rne_div_floor a b Hb) as F. pose proof (rne_div_floor a' b' Hb') as F'.
  pose proof (Z.div_mod a b ltac:(lia)) as E. pose proof (Z.div_mod a' b' ltac:(lia)) as E'.
  pose proof (Z.mod_pos_bound a b Hb) as B. pose proof (Z.mod_pos_bound a' b' Hb') as B'.
  assert (Hq : a / b <= a' / b').
  { apply Z.div_le_lower_bound; [lia|].
    assert (b' * (a / b) * b <= a' * b) by nia. nia. }
  destruct (Z.eq_dec (a / b) (a' / b')) as [Q|Q]; [|lia].
  assert (Hr : (a mod b) * b' <= (a' mod b') * b) by nia.
  unfold rne_div. rewrite <- Q.
  destruct (Z.ltb_spec (2 * (a mod b)) b) as [L|L].
  - destruct (2 * (a' mod b') <? b'); [lia|].
    destruct (b' <? 2 * (a' mod b')); [lia|].
    destruct (Z.even (a / b)); lia.
  - destruct (Z.ltb_spec b (2 * (a mod b))) as [L1|L1].
    + replace (2 * (a' mod b') <? b') with false by (symmetry; apply Z.ltb_ge; nia).
      replace (b' <? 2 * (a' mod b')) with true by (symmetry; apply Z.ltb_lt; nia).
      lia.
    + assert (2 * (a mod b) = b) by lia.
      replace (2 * (a' mod b') <? b') with false by (symmetry; apply Z.ltb_ge; nia).
      destruct (b' <? 2 * (a' mod b')); [destruct (Z.even (a / b)); lia|].
      destruct (Z.even (a / b)); lia.
Qed.

Lemma rne_div_ge (a b N : Z) : 0 < b -> N * b <= a -> N <= rne_div a b.
Proof.
  intros Hb H. pose proof (rne_div_floor a b Hb).
  assert (N <= a / b) by (apply Z.div_le_lower_bound; lia). lia.
Qed.

(** The scaled fraction, on a common power of two. *)
Lemma scaled_uniform (n d s T : Z) :
  0 < d -> 0 <= T -> 0 <= s + T ->
  0 < scaled_den d s /\
  scaled_num n s * (d * 2 ^ T) = n * 2 ^ (s + T) * scaled_den d s.
Proof.
  intros Hd HT HsT. destruct (Z.le_gt_cases 0 s) as [Hs|Hs].
  - destruct (scaled_nonneg_shift n d s Hs) as [-> ->]. split; [lia|].
    rewrite pow2_split by lia. ring.
  - destruct (scaled_neg_shift n d s Hs) as [-> ->].
    pose proof (pow2_pos (- s) ltac:(lia)).
    split; [nia|].
    replace T with ((s + T) + - s) at 1 by lia. rewrite pow2_split by lia. ring.
Qed.


(** The shift [round24] computes puts the quotient in [2^23, 2^24). *)
Lemma shift_binade (n d T : Z) :
  0 < n -> 0 < d -> 0 <= T ->
  1 <= 23 - (Z.log2 n - Z.log2 d) + T ->
  exists s1,
    (if scaled_num n (23 - (Z.log2 n - Z.log2 d))
        / scaled_den d (23 - (Z.log2 n - Z.log2 d)) <? 2 ^ 23
     then 23 - (Z.log2 n - Z.log2 d) + 1 else 23 - (Z.log2 n - Z.log2 d)) = s1 /\
    23 - (Z.log2 n - Z.log2 d) <= s1 <= 23 - (Z.log2 n - Z.log2 d) + 1 /\
    2 ^ 23 * (d * 2 ^ T) <= n * 2 ^ (s1 + T) < 2 ^ 24 * (d * 2 ^ T).
Proof.
  intros Hn Hd HT Hs0.
  set (s0 := 23 - (Z.log2 n - Z.log2 d)) in *.
  destruct (Z.log2_spec n Hn) as [An An']. destruct (Z.log2_spec d Hd) as [Bd Bd'].
  pose proof (Z.log2_nonneg n) as Ha. pose proof (Z.log2_nonneg d) as Hb.
  set (a := Z.log2 n) in *. set (b := Z.log2 d) in *.
  unfold Z.succ in *. rewrite pow2_split in An', Bd' by lia. change (2 ^ 1) with 2 in *.
  pose proof (pow2_pos a Ha) as PA. pose proof (pow2_pos b Hb) as PB.
  pose proof (pow2_pos T HT) as PT. pose proof (pow2_pos (s0 + T) ltac:(lia)) as PP.
  assert (Key : 2 ^ a * 2 ^ (s0 + T) = 2 ^ 23 * (2 ^ b * 2 ^ T)).
  { rewrite <- !pow2_split by lia. f_equal. unfold s0. lia. }
  set (A := 2 ^ a) in *. set (B := 2 ^ b) in *. set (PT' := 2 ^ T) in *.
  set (P := 2 ^ (s0 + T)) in *.
  assert (C0 : 2 ^ 22 * (d * PT') < n * P < 2 ^ 24 * (d * PT')).
  { change (2 ^ 22) with 4194304. change (2 ^ 24) with 16777216.
    change (2 ^ 23) with 8388608 in Key. nia. }
  destruct (scaled_uniform n d s0 T Hd HT ltac:(lia)) as [Hsd Hu]. fold PT' P in Hu.
  destruct (Z.ltb_spec (scaled_num n s0 / scaled_den d s0) (2 ^ 23)) as [L|L].
  - exists (s0 + 1). split; [reflexivity|]. split; [lia|].
    assert (scaled_num n s0 < 2 ^ 23 * scaled_den d s0).
    { destruct (Z.lt_ge_cases (scaled_num n s0) (2 ^ 23 * scaled_den d s0)) as [H|H];
        [exact H|].
      assert (2 ^ 23 <= scaled_num n s0 / scaled_den d s0)
        by (apply Z.div_le_lower_bound; lia). lia. }
    assert (n * P < 2 ^ 23 * (d * PT')).
    { change (2 ^ 23) with 8388608 in *.
      assert (scaled_num n s0 * (d * PT') < 8388608 * scaled_den d s0 * (d * PT')) by nia.
      nia. }
    replace (s0 + 1 + T) with ((s0 + T) + 1) by lia. rewrite pow2_split by lia.
    fold P. change (2 ^ 1) with 2.
    change (2 ^ 22) with 4194304 in *. change (2 ^ 24) with 16777216 in *.
    change (2 ^ 23) with 8388608 in *. lia.
  - exists s0. split; [reflexivity|]. split; [lia|].
    assert (2 ^ 23 * scaled_den d s0 <= scaled_num n s0).
    { pose proof (Z.mul_div_le (scaled_num n s0) (scaled_den d s0) Hsd). nia. }
    fold P. split; [|lia].
    change (2 ^ 23) with 8388608 in *.
    assert (8388608 * scaled_den d s0 * (d * PT') <= scaled_num n s0 * (d * PT')) by nia.
    nia.
Qed.

(** [round24] on a common power of two: the mantissa is the quotient
    rounded on the grid of the result, the quotient is below [2^24] on that
    grid, and at least [2^23] unless the exponent was clamped. *)
Lemma round24_uniform (n d e : Z) :
  0 < n -> 0 < d ->
  exists M g T0,
    round24 n d e = Dy M g /\
    -149 <= g /\
    forall T, T0 <= T ->
      0 <= e + T /\ 0 <= g + T /\
      M = rne_div (n * 2 ^ (e + T)) (d * 2 ^ (g + T)) /\
      n * 2 ^ (e + T) < 2 ^ 24 * (d * 2 ^ (g + T)) /\
      (-149 < g -> 2 ^ 23 * (d * 2 ^ (g + T)) <= n * 2 ^ (e + T)).
Proof.
  intros Hn Hd. unfold round24.
  replace (n =? 0) with false by (symmetry; apply Z.eqb_neq; lia).
  cbv zeta.
  set (s0 := 23 - (Z.log2 n - Z.log2 d)).
  set (s1 := if scaled_num n s0 / scaled_den d s0 <? 2 ^ 23 then s0 + 1 else s0).
  set (s := Z.min s1 (e + 149)).
  assert (Hs1 : s0 <= s1 <= s0 + 1) by (unfold s1; destruct (_ <? _); lia).
  exists (rne_div (scaled_num n s) (scaled_den d s)), (e - s), (Z.abs e + Z.abs s1 + 2).
  split; [reflexivity|]. split; [lia|].
  intros T HT.
  assert (HT0 : 0 <= T) by lia.
  assert (HeT : 0 <= e + T) by lia.
  assert (HgT : 0 <= e - s + T) by lia.
  assert (HT' : 0 <= e - s1 + T) by lia.
  destruct (shift_binade n d (e - s1 + T) Hn Hd HT' ltac:(fold s0; lia))
    as (s1' & Es1 & _ & Hb).
  fold s0 in Es1. fold s1 in Es1. subst s1'.
  replace (s1 + (e - s1 + T)) with (e + T) in Hb by lia.
  pose proof (pow2_pos (e + T) HeT) as PE.
  pose proof (pow2_pos (e - s + T) HgT) as PG.
  pose proof (pow2_pos (e - s1 + T) HT') as PG1.
  repeat split; try assumption.
  - destruct (Z.le_gt_cases 0 s) as [Hs|Hs].
    + destruct (scaled_nonneg_shift n d s Hs) as [-> ->].
      pose proof (pow2_pos s Hs).
      replace (e + T) with (s + (e - s + T)) by lia.
      rewrite (pow2_split s (e - s + T)) by lia.
      rewrite Z.mul_assoc. apply eq_sym, rne_div_scale; lia.
    + destruct (scaled_neg_shift n d s Hs) as [-> ->].
      pose proof (pow2_pos (- s) ltac:(lia)).
      replace (e - s + T) with (- s + (e + T)) by lia.
      rewrite (pow2_split (- s) (e + T)) by lia.
      rewrite Z.mul_assoc. apply eq_sym, rne_div_scale; nia.
  - assert (2 ^ (e - s1 + T) <= 2 ^ (e - s + T)) by (apply Z.pow_le_mono_r; lia).
    change (2 ^ 24) with 16777216 in *. nia.
  - intros Hg. assert (s = s1) by lia.
    replace (e - s + T) with (e - s1 + T) by lia. lia.
Qed.

(** Rounding keeps the order: if [n/d * 2^e <= n'/d' * 2^e'] then the
    float of the first is at most the float of the second. *)
Lemma round24_mono (n d e n' d' e' : Z) :
  0 < n -> 0 < d -> 0 < n' -> 0 < d' ->
  n * 2 ^ (e - Z.min e e') * d' <= n' * 2 ^ (e' - Z.min e e') * d ->
  leb (round24 n d e) (round24 n' d' e') = true.
Proof.
  intros Hn Hd Hn' Hd' Hle.
  destruct (round24_uniform n d e Hn Hd) as (M & g & T0 & -> & Hg & H).
  destruct (round24_uniform n' d' e' Hn' Hd') as (M' & g' & T0' & -> & Hg' & H').
  set (c := Z.min e e') in *.
  set (T := Z.max T0 T0' + Z.abs c).
  destruct (H T ltac:(lia)) as (HeT & HgT & EM & Hup & Hlow).
  destruct (H' T ltac:(lia)) as (HeT' & HgT' & EM' & Hup' & Hlow').
  assert (HcT : 0 <= c + T) by lia.
  pose proof (pow2_pos (c + T) HcT) as PC.
  assert (HA : n * 2 ^ (e + T) * d' <= n' * 2 ^ (e' + T) * d).
  { replace (e + T) with ((e - c) + (c + T)) by lia.
    replace (e' + T) with ((e' - c) + (c + T)) by lia.
    rewrite (pow2_split (e - c) (c + T)), (pow2_split (e' - c) (c + T)) by lia.
    nia. }
  set (A := n * 2 ^ (e + T)) in *. set (A' := n' * 2 ^ (e' + T)) in *.
  pose proof (pow2_pos (g + T) HgT) as PU. pose proof (pow2_pos (g' + T) HgT') as PU'.
  unfold leb. cbn [mant expo]. apply Z.leb_le.
  change (2 ^ 24) with 16777216 in *. change (2 ^ 23) with 8388608 in *.
  destruct (Z.lt_trichotomy g g') as [Lt|[Eq|Gt]].
  - rewrite Z.min_l by lia. replace (g - g) with 0 by lia. change (2 ^ 0) with 1.
    assert (Hw : 2 ^ 1 <= 2 ^ (g' - g)) by (apply Z.pow_le_mono_r; lia).
    change (2 ^ 1) with 2 in Hw.
    assert (M <= 16777216) by (rewrite EM; apply rne_div_le; nia).
    assert (8388608 <= M').
    { rewrite EM'. apply rne_div_ge; [nia|]. specialize (Hlow' ltac:(lia)). lia. }
    nia.
  - subst g'. rewrite Z.min_l by lia. replace (g - g) with 0 by lia.
    change (2 ^ 0) with 1. rewrite !Z.mul_1_r.
    rewrite EM, EM'. apply rne_div_mono; nia.
  - exfalso. specialize (Hlow ltac:(lia)).
    assert (Hw : 2 ^ (g + T) = 2 ^ (g - g') * 2 ^ (g' + T)).
    { rewrite <- pow2_split by lia. f_equal. lia. }
    assert (Hw2 : 2 ^ 1 <= 2 ^ (g - g')) by (apply Z.pow_le_mono_r; lia).
    change (2 ^ 1) with 2 in Hw2.
    set (u' := 2 ^ (g' + T)) in *. set (w := 2 ^ (g - g')) in *.
    rewrite Hw in Hlow.
    assert (8388608 * (d * (w * u')) * d' <= A * d') by nia.
    assert (A' * d < 16777216 * (d' * u') * d) by nia.
    assert (8388608 * (d * (w * u')) * d' < 16777216 * (d' * u') * d) by lia.
    assert (0 < d * d' * u') by nia.
    nia.
Qed.


Lemma round24_nonneg (n d e : Z) : 0 <= n -> 0 < d -> 0 <= mant (round24 n d e).
Proof.
  intros Hn Hd. destruct (Z.eq_dec n 0) as [->|Hn0]; [cbn; lia|].
  destruct (round24_shift n d e Hn0) as (s & _ & _ & ->). cbn [mant].
  destruct (Z.le_gt_cases 0 s) as [Hs|Hs].
  - destruct (scaled_nonneg_shift n d s Hs) as [-> ->].
    pose proof (pow2_pos s Hs). apply rne_div_nonneg; nia.
  - destruct (scaled_neg_shift n d s Hs) as [-> ->].
    pose proof (pow2_pos (- s) ltac:(lia)). apply rne_div_nonneg; nia.
Qed.

Lemma leb_zero_l (x : dyadic) : 0 <= mant x -> leb zero x = true.
Proof.
  intros Hx. unfold leb, zero. cbn [mant expo]. apply Z.leb_le.
  pose proof (pow2_pos (expo x - Z.min 0 (expo x)) ltac:(lia)). nia.
Qed.

(** The float32 quotient by a fixed positive divisor keeps the order. *)
Lemma div_mono (p p' m : Z) :
  0 <= p <= p' -> 0 < m ->
  leb (div (of_int p) (of_int m)) (div (of_int p') (of_int m)) = true.
Proof.
  intros Hp Hm. unfold div, of_int, round_f32. cbn [mant expo].
  replace (p <? 0) with false by (symmetry; apply Z.ltb_ge; lia).
  replace (p' <? 0) with false by (symmetry; apply Z.ltb_ge; lia).
  destruct (Z.eq_dec p 0) as [->|Hp0].
  - change (round24 0 m (0 - 0)) with zero. apply leb_zero_l, round24_nonneg; lia.
  - apply round24_mono; try lia.
    rewrite Z.min_id. replace (0 - 0 - (0 - 0)) with 0 by lia. change (2 ^ 0) with 1. nia.
Qed.

(** The float32 product by 255 keeps the order of non-negative numbers. *)
Lemma mul255_mono (x x' : dyadic) :
  0 <= mant x -> leb x x' = true ->
  leb (mul x (of_int 255)) (mul x' (of_int 255)) = true.
Proof.
  destruct x as [m e], x' as [m' e']. cbn [mant]. intros Hm Hle.
  unfold leb in Hle. cbn [mant expo] in Hle. apply Z.leb_le in Hle.
  pose proof (pow2_pos (e - Z.min e e') ltac:(lia)) as P.
  pose proof (pow2_pos (e' - Z.min e e') ltac:(lia)) as P'.
  assert (Hm' : 0 <= m') by nia.
  unfold mul, of_int, round_f32. cbn [mant expo].
  replace (m * 255 <? 0) with false by (symmetry; apply Z.ltb_ge; lia).
  replace (m' * 255 <? 0) with false by (symmetry; apply Z.ltb_ge; lia).
  destruct (Z.eq_dec m 0) as [->|Hm0].
  - change (round24 (0 * 255) 1 (e + 0)) with zero.
    apply leb_zero_l, round24_nonneg; lia.
  - assert (0 < m') by nia.
    apply round24_mono; try lia.
    replace (e + 0) with e by lia. replace (e' + 0) with e' by lia. nia.
Qed.

Lemma trunc_uniform (m g T : Z) :
  0 <= m -> 0 <= T -> 0 <= g + T -> trunc (Dy m g) = m * 2 ^ (g + T) / 2 ^ T.
Proof.
  intros Hm HT HgT. unfold trunc. cbn [mant expo].
  pose proof (pow2_pos T HT). pose proof (pow2_pos (g + T) HgT).
  destruct (Z.leb_spec 0 g) as [Hg|Hg].
  - rewrite (pow2_split g T) by lia. rewrite Z.mul_assoc, Z.div_mul by lia. reflexivity.
  - pose proof (pow2_pos (- g) ltac:(lia)).
    rewrite Z.quot_div_nonneg by lia.
    replace T with (- g + (g + T)) at 2 by lia.
    rewrite (pow2_split (- g) (g + T)) by lia.
    rewrite Z.div_mul_cancel_r by lia. reflexivity.
Qed.

(** Truncation keeps the order of non-negative numbers. *)
Lemma trunc_mono (y y' : dyadic) :
  0 <= mant y -> leb y y' = true -> trunc y <= trunc y'.
Proof.
  destruct y as [m g], y' as [m' g']. cbn [mant]. intros Hm Hle.
  unfold leb in Hle. cbn [mant expo] in Hle. apply Z.leb_le in Hle.
  set (c := Z.min g g') in *.
  pose proof (pow2_pos (g - c) ltac:(lia)) as P.
  pose proof (pow2_pos (g' - c) ltac:(lia)) as P'.
  assert (Hm' : 0 <= m') by nia.
  set (T := Z.abs g + Z.abs g').
  rewrite (trunc_uniform m g T), (trunc_uniform m' g' T) by lia.
  pose proof (pow2_pos T ltac:(lia)).
  apply Z.div_le_mono; [lia|].
  replace (g + T) with ((g - c) + (c + T)) by lia.
  replace (g' + T) with ((g' - c) + (c + T)) by lia.
  rewrite (pow2_split (g - c) (c + T)), (pow2_split (g' - c) (c + T)) by lia.
  pose proof (pow2_pos (c + T) ltac:(lia)). nia.
Qed.

End F32Order.

(** The rescale of line 65 keeps the order of the pixels. *)
Lemma rescale16_mono (M p p' : Z) :
  0 <= p <= p' -> p' <= M -> 0 < M -> rescale16 M p <= rescale16 M p'.
Proof.
  intros Hp Hp' HM.
  destruct (rescale16_is_trunc M p ltac:(lia) HM) as [-> _].
  destruct (rescale16_is_trunc M p' ltac:(lia) HM) as [-> _].
  apply F32Order.trunc_mono.
  - unfold F32.mul, F32.round_f32, F32.of_int. cbn [F32.mant F32.expo].
    pose proof (F32Facts.div_in_unit p M ltac:(lia) HM) as (Hq & _).
    replace (F32.mant (F32.div (F32.Dy p 0) (F32.Dy M 0)) * 255 <? 0) with false
      by (symmetry; apply Z.ltb_ge; unfold F32.of_int in Hq; lia).
    apply F32Order.round24_nonneg; [unfold F32.of_int in Hq; lia | lia].
  - apply F32Order.mul255_mono.
    + apply (F32Facts.div_in_unit p M); lia.
    + apply F32Order.div_mono; lia.
Qed.

(** X22: the 16-bit normalizer keeps the order of elevations: in an image
    with a positive maximum, a pixel that is not higher than another never
    gets a higher intensity, and a pixel of value 0 stays 0. *)
Theorem normalize16_keeps_order (px : grid Z) (M : Z) (i j i' j' : nat) (p p' : Z) :
  all_cells (fun v => 0 <= v <= 65535) px ->
  amax px = Ok M ->
  0 < M ->
  cell px i j = Some p ->
  cell px i' j' = Some p' ->
  p <= p' ->
  exists out a b,
    normalize16 px = Ok out /\
    cell out i j = Some a /\
    cell out i' j' = Some b /\
    a <= b /\
    (p = 0 -> a = 0).
Proof.
  intros Hr Hmax HM Hc Hc' Hle.
  pose proof (all_cells_cell _ _ _ _ _ Hr Hc) as R. cbn beta in R.
  pose proof (all_cells_cell _ _ _ _ _ (amax_upper px M Hmax) Hc') as U. cbn beta in U.
  exists (map2d (rescale16 M) px), (rescale16 M p), (rescale16 M p').
  split; [apply normalize16_rescales; assumption|].
  split; [rewrite cell_map2d, Hc; reflexivity|].
  split; [rewrite cell_map2d, Hc'; reflexivity|].
  split; [apply rescale16_mono; lia|].
  intros ->. reflexivity.
Qed.

Lemma normalize16_keeps_order_witness :
  exists out a b,
    normalize16 [[3; 8]; [0; 5]] = Ok out /\
    cell out 0 0 = Some a /\
    cell out 1 1 = Some b /\
    a <= b /\
    (3 = 0 -> a = 0).
Proof.
  apply (normalize16_keeps_order [[3; 8]; [0; 5]] 8 0 0 1 1 3 5);
    [repeat constructor; lia | reflexivity | lia | reflexivity | reflexivity | lia].
Defined.
